(** * DeclaraFacil: the request service (backend/src/request/request.service.ts)

    A shallow embedding of [RequestService] and of the two text helpers that
    live inside [generatePdf] ([replacePlaceholders], [formatCep]), followed
    by the properties of the request lifecycle and of the batch generation
    that the specification states about them.

    Strings are [string] (one [ascii] per code unit), dates are [Z]
    (milliseconds since the epoch), a nullable field is an [option]. *)

From Stdlib Require Import List String Ascii Bool Arith ZArith Lia DecimalString.
From Stdlib Require Import Sorted Permutation.
Import ListNotations.
Open Scope string_scope.

(* ================================================================== *)
(** * Part 1. Text helpers *)
(* ================================================================== *)

Module Text.

(** ** Elementary string operations *)

Fixpoint filter_chars (p : ascii -> bool) (s : string) : string :=
  match s with
  | EmptyString => EmptyString
  | String c s' => if p c then String c (filter_chars p s') else filter_chars p s'
  end.

Fixpoint all_chars (p : ascii -> bool) (s : string) : bool :=
  match s with
  | EmptyString => true
  | String c s' => p c && all_chars p s'
  end.

Fixpoint take (n : nat) (s : string) : string :=
  match n, s with
  | S n', String c s' => String c (take n' s')
  | _, _ => EmptyString
  end.

Fixpoint drop (n : nat) (s : string) : string :=
  match n, s with
  | S n', String _ s' => drop n' s'
  | _, _ => s
  end.

Fixpoint repeat_char (c : ascii) (n : nat) : string :=
  match n with
  | O => EmptyString
  | S n' => String c (repeat_char c n')
  end.

(** [\d] of a JavaScript regular expression without the [u] flag: the ten
    characters '0'..'9'. *)
Definition is_digit (c : ascii) : bool :=
  (48 <=? nat_of_ascii c)%nat && (nat_of_ascii c <=? 57)%nat.

(** [s.padStart(n, c)] for a one-character filler. *)
Definition padStart (n : nat) (c : ascii) (s : string) : string :=
  repeat_char c (n - String.length s) ++ s.

(** [s.slice(0, n)] and [s.slice(n)] for a non-negative [n]. *)
Definition slice_to (n : nat) (s : string) : string := take n s.
Definition slice_from (n : nat) (s : string) : string := drop n s.

(** ** formatCep

<<
    const formatCep = (cep) => {
      const sanitizedCep = cep.replace(/\D/g, '');
      const paddedCep = sanitizedCep.padStart(8, '0');
      return `${paddedCep.slice(0, 5)}-${paddedCep.slice(5)}`;
    };
>> *)
Definition formatCep (cep : string) : string :=
  let sanitizedCep := filter_chars is_digit cep in
  let paddedCep := padStart 8 "0" sanitizedCep in
  slice_to 5 paddedCep ++ "-" ++ slice_from 5 paddedCep.

(** The shape [NNNNN-NNN]: five digits, a hyphen, three digits. *)
Definition is_cep_form (s : string) : bool :=
  all_chars is_digit (take 5 s)
  && String.eqb (take 1 (drop 5 s)) "-"
  && all_chars is_digit (drop 6 s)
  && (String.length s =? 9)%nat.

(** ** replacePlaceholders

<<
    const replacePlaceholders = (template, data) =>
      Object.entries(data).reduce((result, [key, value]) => {
        return result.replace(new RegExp(`{{${key}}}`, 'g'), value);
      }, template);
>>

    [String.prototype.replace] with a string replacement expands the
    patterns [$$], [$&], [$`] and [$'] of the replacement ([GetSubstitution]
    of ECMA-262; the regular expression has no capture group, so [$1] ...
    [$99] and [$<] stand for themselves). *)
Fixpoint getSubstitution (matched before after : string) (replacement : string)
  : string :=
  match replacement with
  | EmptyString => EmptyString
  | String "$" (String "$" r) => String "$" (getSubstitution matched before after r)
  | String "$" (String "&" r) => matched ++ getSubstitution matched before after r
  | String "$" (String "`" r) => before ++ getSubstitution matched before after r
  | String "$" (String "'" r) => after ++ getSubstitution matched before after r
  | String c r => String c (getSubstitution matched before after r)
  end.

(** [str.replace(new RegExp(pat, 'g'), replacement)] for a pattern that
    matches the literal text [pat] and nothing else.  The scan goes from
    left to right over the original string; [before] is the part already
    passed, [skip] counts the characters of the current match still to be
    stepped over. *)
Fixpoint replace_scan (pat replacement : string) (skip : nat)
         (before s : string) : string :=
  match s with
  | EmptyString => EmptyString
  | String c s' =>
      match skip with
      | S k => replace_scan pat replacement k (before ++ String c EmptyString) s'
      | O =>
          if prefix pat s
          then getSubstitution pat before (drop (String.length pat) s) replacement
               ++ replace_scan pat replacement (String.length pat - 1)
                    (before ++ String c EmptyString) s'
          else String c (replace_scan pat replacement 0
                           (before ++ String c EmptyString) s')
      end
  end.

Definition replace_global (pat replacement s : string) : string :=
  replace_scan pat replacement 0 EmptyString s.

(** The source text of the regular expression built for one key. *)
Definition token (key : string) : string := "{{" ++ key ++ "}}".

(** The regular expression [{{key}}] matches the literal text [token key]
    when the key is made of letters, digits and underscores and is not a
    number: then no character of the key is special in a pattern and no
    [{n}] quantifier is formed.  [data] lists the entries of the object in
    the order of [Object.entries]. *)
Definition replacePlaceholders (template : string)
           (data : list (string * string)) : string :=
  fold_left (fun result kv => replace_global (token (fst kv)) (snd kv) result)
            data template.

Definition is_word_char (c : ascii) : bool :=
  let n := nat_of_ascii c in
  ((48 <=? n) && (n <=? 57) || (65 <=? n) && (n <=? 90)
   || (97 <=? n) && (n <=? 122) || (n =? 95))%nat.

Definition plain_key (k : string) : bool :=
  all_chars is_word_char k && negb (all_chars is_digit k).

(** [occurs pat s]: the text [pat] occurs somewhere in [s]. *)
Fixpoint occurs (pat s : string) : bool :=
  prefix pat s ||
  match s with
  | EmptyString => false
  | String _ s' => occurs pat s'
  end.

Definition has_char (c : ascii) (s : string) : bool :=
  negb (all_chars (fun d => negb (Ascii.eqb d c)) s).

(** A template seen as the sequence of its pieces: plain text and tokens. *)
Inductive Segment : Type :=
| Txt (t : string)
| Tok (name : string).

Definition segment_text (sg : Segment) : string :=
  match sg with
  | Txt t => t
  | Tok n => token n
  end.

Fixpoint flatten (segs : list Segment) : string :=
  match segs with
  | [] => EmptyString
  | sg :: rest => segment_text sg ++ flatten rest
  end.

(** Plain text holds no opening brace; a token name holds no brace. *)
Definition wf_segment (sg : Segment) : bool :=
  match sg with
  | Txt t => negb (has_char "{" t)
  | Tok n => negb (has_char "{" n) && negb (has_char "}" n)
  end.

Fixpoint lookup (k : string) (data : list (string * string)) : option string :=
  match data with
  | [] => None
  | (k', v) :: rest => if String.eqb k' k then Some v else lookup k rest
  end.

(** What the specification describes: every supplied token gives way to its
    value at once, every other piece stays. *)
Definition render_segment (data : list (string * string)) (sg : Segment) : string :=
  match sg with
  | Txt t => t
  | Tok n => match lookup n data with
             | Some v => v
             | None => token n
             end
  end.

Fixpoint render_spec (data : list (string * string)) (segs : list Segment) : string :=
  match segs with
  | [] => EmptyString
  | sg :: rest => render_segment data sg ++ render_spec data rest
  end.

Definition value_ok (v : string) : bool :=
  negb (has_char "{" v) && negb (has_char "$" v).

(** An entry of [data] within the reach of the literal reading of the
    pattern and of the replacement. *)
Definition entry_ok (kv : string * string) : bool :=
  plain_key (fst kv) && value_ok (snd kv).

(** One [replace] call, and all of them, seen on the pieces. *)
Definition subst_tok (k v : string) (sg : Segment) : Segment :=
  match sg with
  | Txt t => Txt t
  | Tok n => if String.eqb n k then Txt v else Tok n
  end.

Definition resolve (data : list (string * string)) (sg : Segment) : Segment :=
  match sg with
  | Txt t => Txt t
  | Tok n => match lookup n data with
             | Some v => Txt v
             | None => Tok n
             end
  end.

Definition mentions (k : string) (sg : Segment) : bool :=
  match sg with
  | Txt _ => false
  | Tok n => String.eqb n k
  end.

End Text.

(* ================================================================== *)
(** * Part 2. The request service *)
(* ================================================================== *)

Module Service.

(** ** Entities

    The entity classes (request.entity.ts and those of the users and of the
    declarations) are not among the sources; the records hold the fields the
    service reads and writes.  A relation is loaded with its row, as the
    service expects when it reads [request.user.name]; the user of a request
    is whatever [createRequest] was handed by [usersService.findById], hence
    an [option]. *)

Inductive RequestStatus : Type := PENDING | PROCESSING | COMPLETED | REJECTED.

Definition status_eqb (a b : RequestStatus) : bool :=
  match a, b with
  | PENDING, PENDING | PROCESSING, PROCESSING
  | COMPLETED, COMPLETED | REJECTED, REJECTED => true
  | _, _ => false
  end.

Definition Date := Z.
Definition Buffer := string.

Record User : Type := mkUser {
  user_id : string;
  name : string;
  street : string;
  house_number : string;
  complement : option string;
  neighborhood : string;
  city : string;
  state : string;
  postal_code : string;
  rg : string;
  cpf : string;
  issuing_agency : string;
  is_admin : bool
}.

Record Declaration : Type := mkDeclaration {
  decl_id : string;
  decl_type : string;
  title : string;
  content : string;
  footer : string
}.

Record RequestEntity : Type := mkRequest {
  req_id : string;
  user : option User;
  declaration : Declaration;
  status : RequestStatus;
  createdAt : Date;
  generation_date : option Date;
  url : option string;
  attendant : option User
}.

Record FormatRequestType : Type := mkFormatRequest {
  fr_id : string;
  fr_name : string;
  fr_requestDate : Date;
  fr_status : RequestStatus;
  fr_url : option string;
  fr_generationDate : option Date
}.

Record UserRequestType : Type := mkUserRequest {
  ur_id : string;
  ur_declaration : string;
  ur_attendantName : string;
  ur_requestDate : Date;
  ur_status : RequestStatus;
  ur_generationDate : option Date
}.

Record UpdateStatusDto : Type := mkUpdateStatusDto {
  upd_status : RequestStatus;
  upd_requestIds : list string
}.

Record GeneratePdfDto : Type := mkGeneratePdfDto {
  gen_requestIds : list string
}.

(** ** Exceptions, the repository and the monad of the service *)

Inductive Exception : Type :=
| ForbiddenException (message : string)
| ConflictException (message : string)
| TypeError                       (* a property read on [null] *)
| Error (message : string).       (* raised or rejected by a collaborator *)

Inductive Result (A : Type) : Type :=
| Ok (a : A)
| Throw (e : Exception).
Arguments Ok {A} a.
Arguments Throw {A} e.

(** The calls made on [requestRepository], in the order they were made. *)
Inductive Query : Type :=
| QFind
| QFindGenerated (since : Date)
| QFindByUser (userId : string)
| QFindOneById (requestId : string)
| QFindOnePending (userId declarationId : string)
| QUpdate (requestId : string)
| QSave.

Record Db : Type := mkDb {
  rows : list RequestEntity;
  queries : list Query
}.

Definition empty_db : Db := mkDb [] [].

(** A computation of the service reads and writes the table and either
    returns or throws; what it wrote before a throw stays written.  The table
    is the relation itself: a call on the repository always answers, and a
    data base that fails is outside these definitions. *)
Definition M (A : Type) : Type := Db -> Result A * Db.

Definition ret {A} (a : A) : M A := fun db => (Ok a, db).
Definition throw {A} (e : Exception) : M A := fun db => (Throw e, db).
Definition bind {A B} (m : M A) (k : A -> M B) : M B :=
  fun db => match m db with
            | (Ok a, db') => k a db'
            | (Throw e, db') => (Throw e, db')
            end.
Definition try_catch {A} (m : M A) (handler : Exception -> M A) : M A :=
  fun db => match m db with
            | (Ok a, db') => (Ok a, db')
            | (Throw e, db') => handler e db'
            end.

Declare Scope service_scope.
Delimit Scope service_scope with service.
Notation "x <- m ;; k" := (bind m (fun x => k))
  (at level 100, m at next level, right associativity) : service_scope.
Notation "m ;;; k" := (bind m (fun _ => k))
  (at level 100, right associativity) : service_scope.
Open Scope service_scope.

Definition lift {A} (r : Exception + A) : M A :=
  match r with
  | inl e => throw e
  | inr a => ret a
  end.

(** [x.f] where [x] may be [null]. *)
Definition nonnull {A} (x : option A) : M A :=
  match x with
  | Some a => ret a
  | None => throw TypeError
  end.

Fixpoint mapM {A B} (f : A -> M B) (l : list A) : M (list B) :=
  match l with
  | [] => ret []
  | a :: rest => b <- f a ;; bs <- mapM f rest ;; ret (b :: bs)
  end.

Definition logged (q : Query) (db : Db) : Db :=
  mkDb db.(rows) (db.(queries) ++ [q]).

(** *** Repository operations (TypeORM [Repository<RequestEntity>]) *)

Fixpoint insert_desc (key : RequestEntity -> Z) (r : RequestEntity)
         (l : list RequestEntity) : list RequestEntity :=
  match l with
  | [] => [r]
  | x :: rest => if (key x <? key r)%Z then r :: l else x :: insert_desc key r rest
  end.

Definition sort_desc (key : RequestEntity -> Z) (l : list RequestEntity)
  : list RequestEntity :=
  fold_right (insert_desc key) [] l.

Definition user_id_is (userId : string) (r : RequestEntity) : bool :=
  match r.(user) with
  | Some u => String.eqb u.(user_id) userId
  | None => false
  end.

Definition is_generated_since (since : Date) (r : RequestEntity) : bool :=
  match r.(url), r.(generation_date) with
  | Some _, Some d => (since <? d)%Z
  | _, _ => false
  end.

Definition generation_key (r : RequestEntity) : Z :=
  match r.(generation_date) with
  | Some d => d
  | None => 0%Z
  end.

Definition is_pending_for (userId declarationId : string) (r : RequestEntity) : bool :=
  user_id_is userId r
  && String.eqb r.(declaration).(decl_id) declarationId
  && status_eqb r.(status) PENDING.

Definition has_id (requestId : string) (r : RequestEntity) : bool :=
  String.eqb r.(req_id) requestId.

(** [find({ order: { createdAt: 'DESC' } })] *)
Definition repo_find : M (list RequestEntity) :=
  fun db => (Ok (sort_desc createdAt db.(rows)), logged QFind db).

(** [find({ where: { url: Not(IsNull()), generation_date: MoreThan(since) },
           order: { generation_date: 'DESC' } })] *)
Definition repo_find_generated (since : Date) : M (list RequestEntity) :=
  fun db => (Ok (sort_desc generation_key
                   (filter (is_generated_since since) db.(rows))),
             logged (QFindGenerated since) db).

(** [find({ where: { user: { id: userId } }, order: { createdAt: 'DESC' } })] *)
Definition repo_find_by_user (userId : string) : M (list RequestEntity) :=
  fun db => (Ok (sort_desc createdAt (filter (user_id_is userId) db.(rows))),
             logged (QFindByUser userId) db).

(** [findOne({ where: { id: requestId } })] *)
Definition repo_findOne_by_id (requestId : string) : M (option RequestEntity) :=
  fun db => (Ok (find (has_id requestId) db.(rows)),
             logged (QFindOneById requestId) db).

(** [findOne({ where: { user: { id }, declaration: { id }, status: PENDING } })] *)
Definition repo_findOne_pending (userId declarationId : string)
  : M (option RequestEntity) :=
  fun db => (Ok (find (is_pending_for userId declarationId) db.(rows)),
             logged (QFindOnePending userId declarationId) db).

(** [update({ id: requestId }, fields)]: every row with that id is rewritten. *)
Definition update_rows (requestId : string)
           (fields : RequestEntity -> RequestEntity)
           (l : list RequestEntity) : list RequestEntity :=
  map (fun r => if has_id requestId r then fields r else r) l.

Definition repo_update (requestId : string)
           (fields : RequestEntity -> RequestEntity) : M unit :=
  fun db => (Ok tt,
             mkDb (update_rows requestId fields db.(rows))
                  (db.(queries) ++ [QUpdate requestId])).

Definition set_status (s : RequestStatus) (r : RequestEntity) : RequestEntity :=
  mkRequest r.(req_id) r.(user) r.(declaration) s r.(createdAt)
            r.(generation_date) r.(url) r.(attendant).

Definition set_generated (signedUrl : string) (d : Date) (att : option User)
           (r : RequestEntity) : RequestEntity :=
  mkRequest r.(req_id) r.(user) r.(declaration) PROCESSING r.(createdAt)
            (Some d) (Some signedUrl) att.

(** Modelled from the spec: the column defaults of request.entity.ts, which is
    not among the sources.  "On success, creates a Request with status PENDING,
    no url/generation timestamp/attendant"; the primary key and the creation
    timestamp are produced on insertion. *)
Definition create (newId : string) (at_ : Date) (u : option User)
           (d : Declaration) : RequestEntity :=
  mkRequest newId u d PENDING at_ None None None.

(** [save(request)] *)
Definition repo_save (r : RequestEntity) : M RequestEntity :=
  fun db => (Ok r, mkDb (db.(rows) ++ [r]) (db.(queries) ++ [QSave])).

(** ** The collaborators and the surroundings of one call *)

Record Env : Type := mkEnv {
  (** [usersService.findById] *)
  findUser : string -> option User;
  (** [declarationService.findById] *)
  findDeclaration : string -> option Declaration;
  (** [new Date()] as the call reads it ([createRequest], the listings) *)
  now : Date;
  (** the primary key the data base gives to a row saved during the call *)
  newId : string;
  (** the offset of the zone of the server from UTC, in milliseconds: at an
      instant, and for a local time value ([LocalTZA] of ECMA-262) *)
  zoneOffset : Date -> Z;
  zoneOffsetOfLocal : Date -> Z;
  (** [format(date, "dd 'de' MMMM 'de' yyyy", { locale: ptBR })] *)
  formatDate : Date -> string;
  (** [path.join(__dirname, '..', '..', 'tmp')] *)
  tmpDir : string;
  (** [fs.existsSync] and [fs.mkdirSync]; [None] when the directory was made *)
  existsSync : string -> bool;
  mkdirSync : string -> option Exception;
  (** the readings of the clock in the turn of [generatePdf] for a request:
      reading 0 is the [new Date()] of [data_atual], reading 1 the
      [Date.now()] of the file name, reading 2 the [new Date()] of the
      update.  A request that comes twice in one list meets the same
      readings and the same answers of the collaborators. *)
  clock : string -> nat -> Date;
  (** what pdfkit and the file system leave at [filePath]: the bytes read
      back, or the error of the stream or of the read *)
  writePdf : string -> Declaration -> string -> string -> Exception + Buffer;
  (** [uploadFileService.uploadStorage]: the signed URL, or its error *)
  uploadStorage : string -> string -> Buffer -> string -> Exception + string
}.

Definition msPerDay : Z := 86400000.

(** [d.setDate(d.getDate() - n)] on the date [t]: the local time of [t] is
    moved [n] days back ([MakeDay] with the day of the month less [n], the
    time within the day kept) and read as a time of the zone again. *)
Definition setDate_back (E : Env) (n : Z) (t : Date) : Date :=
  let localTime := (t + E.(zoneOffset) t)%Z in
  let newDate := (localTime - n * msPerDay)%Z in
  (newDate - E.(zoneOffsetOfLocal) newDate)%Z.

(** The surroundings of the turn of [generatePdf] for one request: the
    clock shows the first reading of the turn. *)
Definition at_turn (E : Env) (requestId : string) : Env :=
  mkEnv E.(findUser) E.(findDeclaration) (E.(clock) requestId 0) E.(newId)
        E.(zoneOffset) E.(zoneOffsetOfLocal) E.(formatDate) E.(tmpDir)
        E.(existsSync) E.(mkdirSync) E.(clock) E.(writePdf) E.(uploadStorage).

(** ** RequestService *)

Definition is_non_admin (u : option User) : bool :=
  match u with
  | Some p => negb p.(is_admin)
  | None => false
  end.

Definition is_admin_user (u : option User) : bool :=
  match u with
  | Some p => p.(is_admin)
  | None => false
  end.

Definition msg_forbidden : string :=
  "You do not have permission to perform this action.".

Definition msg_conflict : string :=
  "You already have a pending request. Please wait for its completion before requesting again.".

Definition format_request (r : RequestEntity) : M FormatRequestType :=
  u <- nonnull r.(user) ;;
  ret (mkFormatRequest r.(req_id) u.(name) r.(createdAt) r.(status) None None).

Definition getRequests (E : Env) (userId : string) : M (list FormatRequestType) :=
  let user := E.(findUser) userId in
  if is_non_admin user then throw (ForbiddenException msg_forbidden)
  else
    requests <- repo_find ;;
    mapM format_request requests.

Definition format_generated (r : RequestEntity) : M FormatRequestType :=
  u <- nonnull r.(user) ;;
  ret (mkFormatRequest r.(req_id) u.(name) r.(createdAt) r.(status)
                       r.(url) r.(generation_date)).

Definition getRequestsWithDeclarations (E : Env) (userId : string)
  : M (list FormatRequestType) :=
  let user := E.(findUser) userId in
  if is_non_admin user then throw (ForbiddenException msg_forbidden)
  else
    let sevenDaysAgo := setDate_back E 7 E.(now) in
    requests <- repo_find_generated sevenDaysAgo ;;
    mapM format_generated requests.

Definition checkForPendingRequests (userId declarationId : string) : M bool :=
  pendingRequest <- repo_findOne_pending userId declarationId ;;
  ret (match pendingRequest with Some _ => true | None => false end).

Definition getRequestById (requestId : string) : M (option RequestEntity) :=
  repo_findOne_by_id requestId.

Definition createRequest (E : Env) (declarationId userId : string)
  : M RequestEntity :=
  let user := E.(findUser) userId in
  if is_admin_user user
  then throw (ForbiddenException
                "You do not have permission to perform this action. 4")
  else
    match E.(findDeclaration) declarationId with
    | None => throw (ForbiddenException "Declaration not found.")
    | Some declaration =>
        hasPendingRequest <- checkForPendingRequests userId declarationId ;;
        if (hasPendingRequest : bool)
        then throw (ConflictException msg_conflict)
        else
          let request := create E.(newId) E.(now) user declaration in
          repo_save request
    end.

(** [completedStatus.includes(s)] with
    [completedStatus = [COMPLETED, REJECTED]]. *)
Definition completedStatus_includes (s : RequestStatus) : bool :=
  status_eqb s COMPLETED || status_eqb s REJECTED.

Definition format_updated (requestId : string) (r : RequestEntity)
  : M FormatRequestType :=
  u <- nonnull r.(user) ;;
  ret (mkFormatRequest requestId u.(name) r.(createdAt) r.(status) None None).

(** The test that makes a turn of the loop of [updateStatus] [continue]. *)
Definition is_skipped (target current : RequestStatus) : bool :=
  completedStatus_includes current
  || (completedStatus_includes target && negb (status_eqb current PROCESSING)).

(** The body of [for (const requestId of requestIds)] in [updateStatus];
    [requests] is the array the loop pushes to. *)
Fixpoint updateStatus_loop (target : RequestStatus) (requestIds : list string)
         (requests : list FormatRequestType) : M (list FormatRequestType) :=
  match requestIds with
  | [] => ret requests
  | requestId :: rest =>
      requestData <- getRequestById requestId ;;
      rd <- nonnull requestData ;;
      if is_skipped target rd.(status)
      then updateStatus_loop target rest requests
      else
        repo_update requestId (set_status target) ;;;
        updatedRequest <- getRequestById requestId ;;
        ur <- nonnull updatedRequest ;;
        view <- format_updated requestId ur ;;
        updateStatus_loop target rest (requests ++ [view])%list
  end.

Definition updateStatus (E : Env) (userId : string) (dto : UpdateStatusDto)
  : M (list FormatRequestType) :=
  let user := E.(findUser) userId in
  if is_non_admin user then throw (ForbiddenException msg_forbidden)
  else updateStatus_loop dto.(upd_status) dto.(upd_requestIds) [].

Definition attendant_name (r : RequestEntity) : string :=
  match r.(attendant) with
  | Some a => a.(name)
  | None => ""
  end.

Definition format_user_request (r : RequestEntity) : UserRequestType :=
  mkUserRequest r.(req_id) r.(declaration).(decl_type) (attendant_name r)
                r.(createdAt) r.(status) r.(generation_date).

Definition getRequestsByUser (E : Env) (userId : string)
  : M (list UserRequestType) :=
  let user := E.(findUser) userId in
  if is_admin_user user then throw (ForbiddenException msg_forbidden)
  else
    requests <- repo_find_by_user userId ;;
    ret (map format_user_request requests).

(** [generatePdfFile]: the promise resolves with the bytes read back from
    [filePath] when there are some, and rejects otherwise.  It does not touch
    the table. *)
Definition generatePdfFile (E : Env) (filePath : string) (d : Declaration)
           (modifiedContent footerContent : string) : Exception + Buffer :=
  match E.(writePdf) filePath d modifiedContent footerContent with
  | inl e => inl e
  | inr fileBuffer =>
      if (String.length fileBuffer =? 0)%nat
      then inl (Error ("O arquivo " ++ filePath ++ " está vazio"))
      else inr fileBuffer
  end.

(** The object [userData], as [Object.entries] lists it. *)
Definition userData (E : Env) (u : User) : list (string * string) :=
  [ ("nome", u.(name));
    ("rua", u.(street));
    ("numero_casa", u.(house_number));
    ("complemento", match u.(complement) with
                    | Some c => if (String.length c =? 0)%nat then ""
                                else " " ++ c
                    | None => ""
                    end);
    ("bairro", u.(neighborhood));
    ("cidade", u.(city));
    ("estado", u.(state));
    ("cep", Text.formatCep u.(postal_code));
    ("data_atual", E.(formatDate) E.(now));
    ("rg", u.(rg));
    ("cpf", u.(cpf));
    ("orgao_emissor", u.(issuing_agency)) ].

Definition show_millis (d : Date) : string :=
  DecimalString.NilZero.string_of_int (Z.to_int d).

Definition format_processed (requestId : string) (r : RequestEntity)
  : M FormatRequestType :=
  u <- nonnull r.(user) ;;
  ret (mkFormatRequest requestId u.(name) r.(createdAt) r.(status) r.(url) None).

Definition fileName (E : Env) (requestId : string) : string :=
  requestId ++ "_" ++ show_millis (E.(clock) requestId 1) ++ ".pdf".

Definition filePath (E : Env) (requestId : string) : string :=
  E.(tmpDir) ++ "/" ++ fileName E requestId.

(** Steps 3 to 6 of one turn: fill the template, write the document and
    publish it.  The result is the signed URL, or the error that ends the
    turn. *)
Definition publish (E : Env) (requestId : string) (declaration : Declaration)
           (u : User) : Exception + string :=
  let data := userData E u in
  let modifiedContent := Text.replacePlaceholders declaration.(content) data in
  let footerContent := Text.replacePlaceholders declaration.(footer) data in
  match generatePdfFile E (filePath E requestId) declaration
                        modifiedContent footerContent with
  | inl e => inl e
  | inr fileBuffer =>
      match E.(uploadStorage) "declaration" (fileName E requestId)
                              fileBuffer "application/pdf" with
      | inl e => inl e
      | inr signedUrl => inr signedUrl
      end
  end.

(** The [try] block of one turn of the loop of [generatePdf]; it returns the
    array [requests] as the turn leaves it.  The scratch file ([fs]) is not
    part of the state: removing it comes after the push and touches neither
    the table nor the array. *)
Definition generatePdf_try (E : Env) (caller : option User) (requestId : string)
           (requests : list FormatRequestType) : M (list FormatRequestType) :=
  requestData <- getRequestById requestId ;;
  match requestData with
  | None => ret requests
  | Some rd =>
      if negb (status_eqb rd.(status) PENDING) then ret requests
      else
        match E.(findDeclaration) rd.(declaration).(decl_id) with
        | None => ret requests
        | Some declaration =>
            u <- nonnull rd.(user) ;;
            signedUrl <- lift (publish (at_turn E requestId) requestId
                                       declaration u) ;;
            repo_update requestId
              (set_generated signedUrl (E.(clock) requestId 2) caller) ;;;
            updatedRequest <- getRequestById requestId ;;
            ur <- nonnull updatedRequest ;;
            view <- format_processed requestId ur ;;
            ret (requests ++ [view])%list
        end
  end.

(** One turn: [try { ... } catch (error) { console.error(...) }]. *)
Definition generatePdf_item (E : Env) (caller : option User) (requestId : string)
           (requests : list FormatRequestType) : M (list FormatRequestType) :=
  try_catch (generatePdf_try E caller requestId requests)
            (fun _ => ret requests).

Fixpoint generatePdf_loop (E : Env) (caller : option User)
         (requestIds : list string) (requests : list FormatRequestType)
  : M (list FormatRequestType) :=
  match requestIds with
  | [] => ret requests
  | requestId :: rest =>
      requests' <- generatePdf_item E caller requestId requests ;;
      generatePdf_loop E caller rest requests'
  end.

(** [if (!fs.existsSync(tmpDir)) fs.mkdirSync(tmpDir)], before the loop and
    outside its [try]. *)
Definition ensure_tmpDir (E : Env) : M unit :=
  if E.(existsSync) E.(tmpDir) then ret tt
  else match E.(mkdirSync) E.(tmpDir) with
       | Some e => throw e
       | None => ret tt
       end.

(** No entry of [requests] is [null], so the final
    [requests.filter((req) => req !== null)] keeps them all. *)
Definition generatePdf (E : Env) (userId : string) (dto : GeneratePdfDto)
  : M (list FormatRequestType) :=
  let user := E.(findUser) userId in
  if is_non_admin user
  then throw (ForbiddenException
                "You do not have permission to perform this action")
  else
    ensure_tmpDir E ;;;
    generatePdf_loop E user dto.(gen_requestIds) [].

End Service.

(* ================================================================== *)
(** * Part 3. Histories of the table *)
(* ================================================================== *)

Module Lifecycle.
Import Service.

(** The invariant of section 8 of the specification on one request. *)
Definition lifecycle_ok (r : RequestEntity) : Prop :=
  (r.(status) = PENDING -> r.(url) = None /\ r.(generation_date) = None)
  /\ (r.(url) <> None -> r.(status) <> PENDING).

(** The operations that write to the table, each with the surroundings of
    its call. *)
Inductive Op : Type :=
| OpCreateRequest (E : Env) (declarationId userId : string)
| OpUpdateStatus (E : Env) (userId : string) (dto : UpdateStatusDto)
| OpGeneratePdf (E : Env) (userId : string) (dto : GeneratePdfDto).

Definition run_op (op : Op) (db : Db) : Db :=
  match op with
  | OpCreateRequest E declarationId userId =>
      snd (createRequest E declarationId userId db)
  | OpUpdateStatus E userId dto => snd (updateStatus E userId dto db)
  | OpGeneratePdf E userId dto => snd (generatePdf E userId dto db)
  end.

Definition run_ops (ops : list Op) (db : Db) : Db :=
  fold_left (fun d op => run_op op d) ops db.

Definition reachable (db : Db) : Prop :=
  exists ops, db = run_ops ops empty_db.

Definition avoids_pending_target (op : Op) : Prop :=
  match op with
  | OpUpdateStatus _ _ dto => dto.(upd_status) <> PENDING
  | _ => True
  end.

Definition pending_count (userId declarationId : string)
           (l : list RequestEntity) : nat :=
  List.length (filter (is_pending_for userId declarationId) l).

Definition at_most_one_pending (l : list RequestEntity) : Prop :=
  forall userId declarationId, pending_count userId declarationId l <= 1.

(** How the table after a batch of [generatePdf] relates to the table
    before it: under every identifier the request is the one that was there,
    or it was PENDING and is now PROCESSING with a URL. *)
Definition generated_from (before after : list RequestEntity) : Prop :=
  forall requestId,
    find (has_id requestId) after = find (has_id requestId) before
    \/ (exists r0 r1,
          find (has_id requestId) before = Some r0 /\ r0.(status) = PENDING
          /\ find (has_id requestId) after = Some r1
          /\ r1.(status) = PROCESSING /\ r1.(url) <> None).

(** What a batch of [generatePdf] over [requestIds] leaves: [out] are the
    views it added, [before] and [after] the rows around it.  Every view
    belongs to an identifier of the batch whose request was PENDING and is
    now PROCESSING with the URL of the view; and a request that is not stored
    as before has a view. *)
Definition batch_post (requestIds : list string)
           (before after : list RequestEntity)
           (out : list FormatRequestType) : Prop :=
  generated_from before after
  /\ (forall v, In v out ->
        In v.(fr_id) requestIds /\ v.(fr_status) = PROCESSING
        /\ v.(fr_url) <> None
        /\ (exists r, find (has_id v.(fr_id)) before = Some r
                      /\ r.(status) = PENDING)
        /\ (exists r', find (has_id v.(fr_id)) after = Some r'
                       /\ r'.(status) = PROCESSING
                       /\ r'.(url) = v.(fr_url)))
  /\ (forall x, find (has_id x) after = find (has_id x) before
                \/ exists v, In v out /\ v.(fr_id) = x).

(** The table after the update of step 7. *)
Definition db_after_generation (E : Env) (caller : option User)
           (requestId signedUrl : string) (db : Db) : Db :=
  logged (QFindOneById requestId)
    (mkDb (update_rows requestId
             (set_generated signedUrl (E.(clock) requestId 2) caller)
             db.(rows))
          (queries (logged (QFindOneById requestId) db) ++ [QUpdate requestId])).

(** The collaborators answer for the identifier they were asked about. *)
Definition stores_consistent (E : Env) : Prop :=
  (forall uid u, E.(findUser) uid = Some u -> u.(user_id) = uid)
  /\ (forall did d, E.(findDeclaration) did = Some d -> d.(decl_id) = did).

End Lifecycle.

(** ** A small installation, for the examples *)

Module Sample.
Import Service Lifecycle.

Definition ana : User :=
  mkUser "u1" "Ana Souza" "Rua das Flores" "12" (Some "ap 3") "Santana"
         "São Paulo" "SP" "02403-010" "12.345.678-9" "123.456.789-00" "SSP"
         false.

Definition bia : User :=
  mkUser "adm" "Bia Lima" "Rua Um" "1" None "Centro" "São Paulo" "SP"
         "01310100" "1" "2" "SSP" true.

Definition matricula : Declaration :=
  mkDeclaration "d1" "matricula" "DECLARAÇÃO"
    "Eu, {{nome}}, RG {{rg}}, residente em {{rua}}, {{numero_casa}}{{complemento}}, CEP {{cep}}."
    "São Paulo, {{data_atual}}".

Definition users (uid : string) : option User :=
  if String.eqb uid "u1" then Some ana
  else if String.eqb uid "adm" then Some bia
  else None.

Definition declarations (did : string) : option Declaration :=
  if String.eqb did "d1" then Some matricula else None.

Definition env_with (writer : Exception + Buffer)
           (uploader : string -> Exception + string)
           (id : string) (at_ : Date) : Env :=
  mkEnv users declarations at_ id (fun _ => 0%Z) (fun _ => 0%Z)
        (fun _ => "02 de novembro de 2026") "/app/tmp"
        (fun _ => true) (fun _ => None) (fun _ _ => at_)
        (fun _ _ _ _ => writer)
        (fun _ file _ _ => uploader file).

(** Every collaborator works. *)
Definition env : string -> Date -> Env :=
  env_with (inr "%PDF-1.3") (fun file => inr ("https://blob/" ++ file)).

(** The document cannot be written. *)
Definition env_unwritable : string -> Date -> Env :=
  env_with (inl (Error "EACCES")) (fun file => inr ("https://blob/" ++ file)).

(** The document is written and the upload is refused. *)
Definition env_offline : string -> Date -> Env :=
  env_with (inr "%PDF-1.3") (fun _ => inl (Error "ECONNREFUSED")).

(** One request of Ana, submitted. *)
Definition db_submitted : Db :=
  run_ops [OpCreateRequest (env "r1" 1000%Z) "d1" "u1"] empty_db.

(** The same request once its document has been generated by Bia. *)
Definition db_generated : Db :=
  run_ops [OpGeneratePdf (env "" 2000%Z) "adm" (mkGeneratePdfDto ["r1"])]
          db_submitted.

(** Two requests: the first one completed, the second one just submitted. *)
Definition db_two : Db :=
  run_ops [OpUpdateStatus (env "" 3000%Z) "adm" (mkUpdateStatusDto COMPLETED ["r1"]);
           OpCreateRequest (env "r2" 4000%Z) "d1" "u1"]
          db_generated.

(** Request r1 generated and then put back to PENDING by an administrator. *)
Definition db_pending_again : Db :=
  run_ops [OpUpdateStatus (env "" 3000%Z) "adm" (mkUpdateStatusDto PENDING ["r1"])]
          db_generated.

(** Ana asks twice for the same declaration: r1 is taken in hand
    (PROCESSING) before she submits r2, and is put back to PENDING after. *)
Definition db_two_pending : Db :=
  run_ops [OpCreateRequest (env "r1" 1000%Z) "d1" "u1";
           OpUpdateStatus (env "" 2000%Z) "adm"
                          (mkUpdateStatusDto PROCESSING ["r1"]);
           OpCreateRequest (env "r2" 3000%Z) "d1" "u1";
           OpUpdateStatus (env "" 4000%Z) "adm"
                          (mkUpdateStatusDto PENDING ["r1"])]
          empty_db.

End Sample.

(** ** Vocabulary for the listings and for the effect of a batch *)

Module Effects.
Import Service Lifecycle.

Definition has_user (r : RequestEntity) : bool :=
  match r.(user) with
  | Some _ => true
  | None => false
  end.

Definition user_name (r : RequestEntity) : string :=
  match r.(user) with
  | Some u => u.(name)
  | None => ""
  end.

(** The view that [getRequests] builds of a request with a user. *)
Definition listed (r : RequestEntity) : FormatRequestType :=
  mkFormatRequest r.(req_id) (user_name r) r.(createdAt) r.(status) None None.

(** The view that [getRequestsWithDeclarations] builds. *)
Definition listed_generated (r : RequestEntity) : FormatRequestType :=
  mkFormatRequest r.(req_id) (user_name r) r.(createdAt) r.(status)
                  r.(url) r.(generation_date).

(** Newest first: no element is followed by one with a greater key. *)
Definition desc_sorted {A} (key : A -> Z) (l : list A) : Prop :=
  StronglySorted (fun a b => (key b <= key a)%Z) l.

(** How the table after [updateStatus] relates to the table before it: under
    every identifier the request is the one that was there, or the one that
    was there passed the test of the loop and has the target status now, all
    its other fields being kept. *)
Definition status_moved (target : RequestStatus)
           (before after : list RequestEntity) : Prop :=
  forall requestId,
    find (has_id requestId) after = find (has_id requestId) before
    \/ (exists r,
          find (has_id requestId) before = Some r
          /\ is_skipped target r.(status) = false
          /\ find (has_id requestId) after = Some (set_status target r)).

(** The same for [generatePdf] run by [caller]. *)
Definition documents_added (E : Env) (caller : option User)
           (before after : list RequestEntity) : Prop :=
  forall requestId,
    find (has_id requestId) after = find (has_id requestId) before
    \/ (exists r signedUrl,
          find (has_id requestId) before = Some r
          /\ r.(status) = PENDING
          /\ find (has_id requestId) after
             = Some (set_generated signedUrl (E.(clock) requestId 2) caller r)).

Definition is_update_of (requestId : string) (q : Query) : bool :=
  match q with
  | QUpdate x => String.eqb x requestId
  | _ => false
  end.

(** How many times the repository was asked to update a request. *)
Definition updates_of (requestId : string) (qs : list Query) : nat :=
  List.length (filter (is_update_of requestId) qs).

(** The effect of [generatePdf] with the updates counted: [added] are the
    calls on the repository made meanwhile.  Under every identifier the
    request is the one that was there and was not updated, or it was PENDING
    and was updated once, to the result of [set_generated]. *)
Definition documents_counted (E : Env) (caller : option User)
           (before after : list RequestEntity) (added : list Query) : Prop :=
  forall x,
    (find (has_id x) after = find (has_id x) before
     /\ updates_of x added = 0)
    \/ (exists r signedUrl,
          find (has_id x) before = Some r
          /\ r.(status) = PENDING
          /\ find (has_id x) after
             = Some (set_generated signedUrl (E.(clock) x 2) caller r)
          /\ updates_of x added = 1).

(** What no operation changes in a request. *)
Definition identity_of (r : RequestEntity)
  : string * option User * Declaration * Date :=
  (r.(req_id), r.(user), r.(declaration), r.(createdAt)).

(** The url and the generation date come and go together, and an attendant
    is only recorded with them. *)
Definition dates_paired (r : RequestEntity) : Prop :=
  (r.(url) = None <-> r.(generation_date) = None)
  /\ (r.(attendant) <> None -> r.(url) <> None).

(** The values of a profile that go into a document hold neither an opening
    brace nor a dollar sign. *)
Definition clean_profile (E : Env) (u : User) : bool :=
  forallb Text.value_ok
    [u.(name); u.(street); u.(house_number);
     match u.(complement) with Some c => c | None => "" end;
     u.(neighborhood); u.(city); u.(state); E.(formatDate) E.(now);
     u.(rg); u.(cpf); u.(issuing_agency)].

End Effects.

(* ================================================================== *)
(** * Part 4. Properties of the text helpers *)
(* ================================================================== *)

Module TextFacts.
Import Text.

Lemma length_app (a b : string) :
  String.length (a ++ b) = String.length a + String.length b.
Proof. induction a as [|c a IH]; simpl; [reflexivity | now rewrite IH]. Qed.

Lemma app_assoc_s (a b c : string) : (a ++ b) ++ c = a ++ (b ++ c).
Proof. induction a as [|x a IH]; simpl; [reflexivity | now rewrite IH]. Qed.

Lemma app_empty_r (a : string) : a ++ EmptyString = a.
Proof. induction a as [|x a IH]; simpl; [reflexivity | now rewrite IH]. Qed.

Lemma all_chars_app p (a b : string) :
  all_chars p (a ++ b) = all_chars p a && all_chars p b.
Proof.
  induction a as [|c a IH]; simpl; [reflexivity|].
  now rewrite IH, andb_assoc.
Qed.

Lemma all_chars_filter p (s : string) : all_chars p (filter_chars p s) = true.
Proof.
  induction s as [|c s IH]; simpl; [reflexivity|].
  destruct (p c) eqn:Hc; simpl; [now rewrite Hc|assumption].
Qed.

Lemma all_chars_repeat p c n : p c = true -> all_chars p (repeat_char c n) = true.
Proof. intros Hc; induction n; simpl; [reflexivity | now rewrite Hc]. Qed.

Lemma length_repeat c n : String.length (repeat_char c n) = n.
Proof. induction n; simpl; congruence. Qed.

Lemma all_chars_take p n (s : string) :
  all_chars p s = true -> all_chars p (take n s) = true.
Proof.
  revert s; induction n as [|n IH]; intros [|c s]; simpl; try reflexivity.
  intros H; apply andb_true_iff in H as [Hc Hs].
  now rewrite Hc, IH.
Qed.

Lemma all_chars_drop p n (s : string) :
  all_chars p s = true -> all_chars p (drop n s) = true.
Proof.
  revert s; induction n as [|n IH]; intros [|c s]; simpl; try tauto.
  intros H; apply andb_true_iff in H as [_ Hs]; now apply IH.
Qed.

Lemma length_take n (s : string) : String.length (take n s) = Nat.min n (String.length s).
Proof.
  revert s; induction n as [|n IH]; intros [|c s]; simpl; try reflexivity.
  now rewrite IH.
Qed.

Lemma length_drop n (s : string) : String.length (drop n s) = String.length s - n.
Proof.
  revert s; induction n as [|n IH]; intros [|c s]; simpl; try reflexivity.
  apply IH.
Qed.

Lemma take_app_length (a b : string) : take (String.length a) (a ++ b) = a.
Proof. induction a as [|c a IH]; simpl; [now destruct b | now rewrite IH]. Qed.

Lemma drop_app_length (a b : string) n :
  drop (String.length a + n) (a ++ b) = drop n b.
Proof. induction a as [|c a IH]; simpl; [reflexivity | apply IH]. Qed.

Lemma length_padStart n c (s : string) :
  String.length (padStart n c s) = Nat.max n (String.length s).
Proof. unfold padStart; rewrite length_app, length_repeat; lia. Qed.

Lemma padded_digits (cep : string) :
  all_chars is_digit (padStart 8 "0" (filter_chars is_digit cep)) = true.
Proof.
  unfold padStart; rewrite all_chars_app, all_chars_filter, andb_true_r.
  now apply all_chars_repeat.
Qed.

(** A string of at least five digits, cut after the fifth and joined by a
    hyphen, has the postal-code shape exactly when eight digits went in. *)
Lemma cep_form_of_split (p : string) :
  all_chars is_digit p = true ->
  5 <= String.length p ->
  is_cep_form (take 5 p ++ "-" ++ drop 5 p) = (String.length p =? 8)%nat.
Proof.
  intros Hd Hl.
  assert (L5 : String.length (take 5 p) = 5) by (rewrite length_take; lia).
  unfold is_cep_form.
  replace (take 5 (take 5 p ++ "-" ++ drop 5 p)) with (take 5 p)
    by (symmetry; rewrite <- L5 at 1; apply take_app_length).
  replace (drop 5 (take 5 p ++ "-" ++ drop 5 p)) with ("-" ++ drop 5 p)
    by (symmetry; change 5 with (5 + 0) at 1; rewrite <- L5 at 1;
        apply drop_app_length).
  replace (drop 6 (take 5 p ++ "-" ++ drop 5 p)) with (drop 5 p)
    by (symmetry; change 6 with (5 + 1); rewrite <- L5 at 1;
        apply (drop_app_length (take 5 p) ("-" ++ drop 5 p) 1)).
  rewrite all_chars_take, all_chars_drop by assumption.
  rewrite !length_app, L5, length_drop. simpl String.length.
  destruct (Nat.eqb_spec (5 + (1 + (String.length p - 5))) 9) as [e|e];
    destruct (Nat.eqb_spec (String.length p) 8) as [e'|e'];
    try reflexivity; exfalso; lia.
Qed.

(** *** Scanning for a token *)

Lemma prefix_cons a b (p s : string) :
  prefix (String a p) (String b s) = if Ascii.eqb a b then prefix p s else false.
Proof.
  simpl. destruct (ascii_dec a b) as [e|e].
  - subst; now rewrite Ascii.eqb_refl.
  - destruct (Ascii.eqb_spec a b); [contradiction | reflexivity].
Qed.

Lemma prefix_app (p r : string) : prefix p (p ++ r) = true.
Proof.
  induction p as [|c p IH]; [now destruct r|].
  change (String c p ++ r) with (String c (p ++ r)).
  now rewrite prefix_cons, Ascii.eqb_refl.
Qed.

Lemma has_char_cons c d (s : string) :
  has_char c (String d s) = Ascii.eqb d c || has_char c s.
Proof. unfold has_char; simpl. now rewrite negb_andb, negb_involutive. Qed.

Lemma has_char_app c (a b : string) :
  has_char c (a ++ b) = has_char c a || has_char c b.
Proof. unfold has_char; now rewrite all_chars_app, negb_andb. Qed.

Lemma has_char_none p c (k : string) :
  all_chars p k = true -> p c = false -> has_char c k = false.
Proof.
  intros Hk Hc; induction k as [|d k IH]; [reflexivity|].
  simpl in Hk; apply andb_true_iff in Hk as [Hd Hk].
  rewrite has_char_cons, IH by assumption.
  destruct (Ascii.eqb_spec d c); [congruence | reflexivity].
Qed.

Lemma plain_key_no_brace (k : string) :
  plain_key k = true -> has_char "{" k = false /\ has_char "}" k = false.
Proof.
  unfold plain_key; intros H; apply andb_true_iff in H as [H _].
  split; eapply has_char_none; eauto.
Qed.

Lemma getSubstitution_other m b a c (r : string) :
  c <> "$"%char ->
  getSubstitution m b a (String c r) = String c (getSubstitution m b a r).
Proof.
  intros Hc.
  destruct c as [[] [] [] [] [] [] [] []]; try reflexivity.
  exfalso; apply Hc; reflexivity.
Qed.

Lemma getSubstitution_plain m b a (v : string) :
  has_char "$" v = false -> getSubstitution m b a v = v.
Proof.
  induction v as [|c v IH]; [reflexivity|].
  rewrite has_char_cons; intros H; apply orb_false_iff in H as [Hc Hv].
  rewrite getSubstitution_other, IH; auto.
  intros ->; discriminate.
Qed.

Section Scan.
Variables (k v : string).
Hypothesis k_close : has_char "}" k = false.
Hypothesis v_plain : has_char "$" v = false.

Lemma scan_step_nomatch before c (s : string) :
  prefix (token k) (String c s) = false ->
  replace_scan (token k) v 0 before (String c s)
  = String c (replace_scan (token k) v 0 (before ++ String c EmptyString) s).
Proof.
  intros H.
  change (replace_scan (token k) v 0 before (String c s))
    with (if prefix (token k) (String c s)
          then getSubstitution (token k) before
                 (drop (String.length (token k)) (String c s)) v
               ++ replace_scan (token k) v (String.length (token k) - 1)
                    (before ++ String c EmptyString) s
          else String c (replace_scan (token k) v 0
                           (before ++ String c EmptyString) s)).
  now rewrite H.
Qed.

Lemma scan_skip (m : string) : forall before rest,
  replace_scan (token k) v (String.length m) before (m ++ rest)
  = replace_scan (token k) v 0 (before ++ m) rest.
Proof.
  induction m as [|c m IH]; intros before rest.
  - simpl. rewrite app_empty_r. now destruct rest.
  - simpl. rewrite IH, app_assoc_s. reflexivity.
Qed.

Lemma scan_match before (rest : string) :
  replace_scan (token k) v 0 before ((token k) ++ rest)
  = v ++ replace_scan (token k) v 0 (before ++ (token k)) rest.
Proof.
  pose proof (prefix_app (token k) rest) as Hp.
  pose proof (scan_skip (String "{" (k ++ "}}"))
                (before ++ String "{" EmptyString) rest) as Hs.
  assert (Hd : drop (String.length (token k)) ((token k) ++ rest) = rest).
  { replace (String.length (token k)) with (String.length (token k) + 0) by lia.
    apply drop_app_length. }
  change ((token k) ++ rest) with (String "{" (String "{" (k ++ "}}") ++ rest)) in *.
  change (replace_scan (token k) v 0 before
            (String "{" (String "{" (k ++ "}}") ++ rest)))
    with (if prefix (token k) (String "{" (String "{" (k ++ "}}") ++ rest))
          then getSubstitution (token k) before
                 (drop (String.length (token k))
                    (String "{" (String "{" (k ++ "}}") ++ rest))) v
               ++ replace_scan (token k) v (String.length (token k) - 1)
                    (before ++ String "{" EmptyString)
                    (String "{" (k ++ "}}") ++ rest)
          else String "{" (replace_scan (token k) v 0
                           (before ++ String "{" EmptyString)
                           (String "{" (k ++ "}}") ++ rest))).
  rewrite Hp, Hd, getSubstitution_plain by assumption.
  replace (String.length (token k) - 1) with (String.length (String "{" (k ++ "}}")))
    by (unfold token; simpl; lia).
  rewrite Hs, app_assoc_s. reflexivity.
Qed.

Lemma prefix_other_char c (s : string) :
  Ascii.eqb c "{" = false -> prefix (token k) (String c s) = false.
Proof.
  intros Hc. unfold token. simpl append. rewrite prefix_cons.
  destruct (Ascii.eqb_spec "{"%char c); [subst; discriminate | reflexivity].
Qed.

(** Text without an opening brace goes through unchanged. *)
Lemma scan_text (t : string) : forall before rest,
  has_char "{" t = false ->
  replace_scan (token k) v 0 before (t ++ rest)
  = t ++ replace_scan (token k) v 0 (before ++ t) rest.
Proof.
  induction t as [|c t IH]; intros before rest Ht.
  - simpl. now rewrite app_empty_r.
  - rewrite has_char_cons in Ht; apply orb_false_iff in Ht as [Hc Ht].
    simpl append. rewrite scan_step_nomatch by now apply prefix_other_char.
    rewrite IH, app_assoc_s by assumption. reflexivity.
Qed.

(** The token of another name is not where the pattern starts. *)
Lemma prefix_other_name : forall (k' n r : string),
  has_char "}" k' = false -> has_char "}" n = false -> n <> k' ->
  prefix (k' ++ "}}") (n ++ "}}" ++ r) = false.
Proof.
  induction k' as [|a k' IH]; intros [|c n] r Hk Hn Hne.
  - congruence.
  - rewrite has_char_cons in Hn; apply orb_false_iff in Hn as [Hc _].
    simpl append. rewrite prefix_cons.
    destruct (Ascii.eqb_spec "}"%char c); [subst; discriminate | reflexivity].
  - rewrite has_char_cons in Hk; apply orb_false_iff in Hk as [Ha _].
    simpl append. rewrite prefix_cons. now rewrite Ha.
  - rewrite has_char_cons in Hk, Hn.
    apply orb_false_iff in Hk as [_ Hk]; apply orb_false_iff in Hn as [_ Hn].
    simpl append. rewrite prefix_cons.
    destruct (Ascii.eqb_spec a c); [subst|reflexivity].
    apply IH; congruence.
Qed.

Lemma prefix_token_other (n r : string) :
  has_char "}" n = false -> n <> k -> prefix (token k) (token n ++ r) = false.
Proof.
  intros Hn Hne. unfold token. simpl append.
  rewrite !prefix_cons. simpl.
  rewrite app_assoc_s. now apply prefix_other_name.
Qed.

Lemma prefix_token_inner (n r : string) :
  has_char "{" n = false ->
  prefix (token k) (String "{" (n ++ "}}" ++ r)) = false.
Proof.
  intros Hn. unfold token. simpl append. rewrite prefix_cons. simpl.
  destruct n as [|c n]; simpl append; rewrite prefix_cons; [reflexivity|].
  rewrite has_char_cons in Hn; apply orb_false_iff in Hn as [Hc _].
  destruct (Ascii.eqb_spec "{"%char c); [subst; discriminate | reflexivity].
Qed.

Lemma token_tail_no_open (n : string) :
  has_char "{" n = false -> has_char "{" (n ++ "}}") = false.
Proof. intros Hn; now rewrite has_char_app, Hn. Qed.

Lemma scan_other_token before (n rest : string) :
  has_char "{" n = false -> has_char "}" n = false -> n <> k ->
  replace_scan (token k) v 0 before (token n ++ rest)
  = token n ++ replace_scan (token k) v 0 (before ++ token n) rest.
Proof.
  intros Ho Hc Hne.
  pose proof (prefix_token_other n rest Hc Hne) as H0.
  pose proof (prefix_token_inner n rest Ho) as H1.
  unfold token in H0 |- *. simpl append in H0 |- *.
  rewrite app_assoc_s in H0 |- *.
  rewrite scan_step_nomatch by exact H0.
  rewrite scan_step_nomatch by exact H1.
  rewrite <- app_assoc_s.
  rewrite scan_text by now apply token_tail_no_open.
  rewrite !app_assoc_s. reflexivity.
Qed.

(** One [replace] call on a well-formed template. *)
Lemma scan_segments (segs : list Segment) : forall before,
  forallb wf_segment segs = true ->
  replace_scan (token k) v 0 before (flatten segs)
  = flatten (map (subst_tok k v) segs).
Proof.
  induction segs as [|sg segs IH]; intros before Hwf; [reflexivity|].
  simpl in Hwf; apply andb_true_iff in Hwf as [Hsg Hwf].
  destruct sg as [t|n].
  - change (flatten (Txt t :: segs)) with (t ++ flatten segs).
    simpl in Hsg; apply negb_true_iff in Hsg.
    rewrite scan_text, IH by assumption. reflexivity.
  - change (flatten (Tok n :: segs)) with (token n ++ flatten segs).
    simpl in Hsg; apply andb_true_iff in Hsg as [Ho Hc].
    apply negb_true_iff in Ho; apply negb_true_iff in Hc.
    change (map (subst_tok k v) (Tok n :: segs))
      with (subst_tok k v (Tok n) :: map (subst_tok k v) segs).
    unfold subst_tok at 1.
    destruct (String.eqb_spec n k) as [Heq|Hne].
    + rewrite Heq, scan_match, IH by assumption. reflexivity.
    + rewrite scan_other_token, IH by assumption. reflexivity.
Qed.

(** The same walk, looking for an occurrence instead of replacing. *)
Lemma occurs_text (t rest : string) :
  has_char "{" t = false -> occurs (token k) (t ++ rest) = occurs (token k) rest.
Proof.
  induction t as [|c t IH]; intros Ht; [reflexivity|].
  rewrite has_char_cons in Ht; apply orb_false_iff in Ht as [Hc Ht].
  simpl append. simpl occurs. fold (occurs (token k) (t ++ rest)).
  change (prefix (token k) (String c (t ++ rest)) || occurs (token k) (t ++ rest)
          = occurs (token k) rest).
  rewrite prefix_other_char, IH by assumption. reflexivity.
Qed.

Lemma occurs_cons c (s : string) :
  occurs (token k) (String c s) = prefix (token k) (String c s) || occurs (token k) s.
Proof. reflexivity. Qed.

Lemma token_app (n rest : string) :
  token n ++ rest = String "{" (String "{" ((n ++ "}}") ++ rest)).
Proof. unfold token; simpl; now rewrite app_assoc_s. Qed.

Lemma occurs_other_token (n rest : string) :
  has_char "{" n = false -> has_char "}" n = false -> n <> k ->
  occurs (token k) (token n ++ rest) = occurs (token k) rest.
Proof.
  intros Ho Hc Hne.
  pose proof (prefix_token_other n rest Hc Hne) as H0.
  pose proof (prefix_token_inner n rest Ho) as H1.
  rewrite <- app_assoc_s in H1.
  rewrite (token_app n rest) in H0 |- *.
  rewrite occurs_cons, H0, occurs_cons, H1. simpl orb.
  now rewrite occurs_text by now apply token_tail_no_open.
Qed.

Lemma occurs_segments (segs : list Segment) :
  forallb wf_segment segs = true ->
  existsb (mentions k) segs = false ->
  occurs (token k) (flatten segs) = false.
Proof.
  induction segs as [|sg segs IH]; intros Hwf Hm.
  - unfold token. reflexivity.
  - simpl in Hwf; apply andb_true_iff in Hwf as [Hsg Hwf].
    simpl in Hm; apply orb_false_iff in Hm as [Hk Hm].
    destruct sg as [t|n].
    + change (flatten (Txt t :: segs)) with (t ++ flatten segs).
      simpl in Hsg; apply negb_true_iff in Hsg.
      rewrite occurs_text by assumption. auto.
    + change (flatten (Tok n :: segs)) with (token n ++ flatten segs).
      simpl in Hsg; apply andb_true_iff in Hsg as [Ho Hc].
      apply negb_true_iff in Ho; apply negb_true_iff in Hc.
      simpl in Hk. rewrite occurs_other_token; auto.
      intros ->. now rewrite String.eqb_refl in Hk.
Qed.

End Scan.

Lemma render_spec_flatten data (segs : list Segment) :
  render_spec data segs = flatten (map (resolve data) segs).
Proof.
  induction segs as [|sg segs IH]; [reflexivity|].
  simpl; rewrite IH.
  destruct sg as [t|n]; simpl; [reflexivity|].
  now destruct (lookup n data).
Qed.

Lemma render_spec_cons k v data (segs : list Segment) :
  render_spec ((k, v) :: data) segs = render_spec data (map (subst_tok k v) segs).
Proof.
  induction segs as [|sg segs IH]; [reflexivity|].
  simpl; rewrite IH.
  destruct sg as [t|n]; simpl; [reflexivity|].
  rewrite (String.eqb_sym k n).
  now destruct (String.eqb n k).
Qed.

Lemma wf_subst_tok k v (segs : list Segment) :
  has_char "{" v = false ->
  forallb wf_segment segs = true ->
  forallb wf_segment (map (subst_tok k v) segs) = true.
Proof.
  intros Hv; induction segs as [|sg segs IH]; [reflexivity|].
  simpl; intros H; apply andb_true_iff in H as [Hsg Hwf].
  rewrite IH, andb_true_r by assumption.
  destruct sg as [t|n]; simpl; [assumption|].
  destruct (String.eqb n k); simpl; [now rewrite Hv | assumption].
Qed.

Lemma lookup_value_ok data n v :
  forallb entry_ok data = true -> lookup n data = Some v -> has_char "{" v = false.
Proof.
  induction data as [|[k' v'] data IH]; simpl; [discriminate|].
  intros H; apply andb_true_iff in H as [Hkv Hd].
  destruct (String.eqb k' n); [|now apply IH].
  intros [= <-]. unfold entry_ok, value_ok in Hkv; simpl in Hkv.
  apply andb_true_iff in Hkv as [_ Hv]; apply andb_true_iff in Hv as [Hv _].
  now apply negb_true_iff in Hv.
Qed.

Lemma wf_resolve data (segs : list Segment) :
  forallb entry_ok data = true ->
  forallb wf_segment segs = true ->
  forallb wf_segment (map (resolve data) segs) = true.
Proof.
  intros Hd; induction segs as [|sg segs IH]; [reflexivity|].
  simpl; intros H; apply andb_true_iff in H as [Hsg Hwf].
  rewrite IH, andb_true_r by assumption.
  destruct sg as [t|n]; simpl; [assumption|].
  destruct (lookup n data) as [v|] eqn:Hl; simpl; [|assumption].
  now rewrite (lookup_value_ok data n v).
Qed.

Lemma lookup_supplied data k :
  In k (map fst data) -> lookup k data <> None.
Proof.
  induction data as [|[k' v'] data IH]; simpl; [tauto|].
  intros [->|Hin]; [now rewrite String.eqb_refl|].
  destruct (String.eqb k' k); [discriminate | auto].
Qed.

Lemma resolve_forgets data k (segs : list Segment) :
  In k (map fst data) ->
  existsb (mentions k) (map (resolve data) segs) = false.
Proof.
  intros Hin; induction segs as [|sg segs IH]; [reflexivity|].
  simpl; rewrite IH, orb_false_r.
  destruct sg as [t|n]; simpl; [reflexivity|].
  destruct (lookup n data) eqn:Hl; simpl; [reflexivity|].
  destruct (String.eqb_spec n k); [subst|reflexivity].
  now apply lookup_supplied in Hin.
Qed.

Lemma plain_key_of_entry data k :
  forallb entry_ok data = true -> In k (map fst data) -> plain_key k = true.
Proof.
  induction data as [|[k' v'] data IH]; simpl; [tauto|].
  intros H; apply andb_true_iff in H as [Hkv Hd].
  intros [<-|Hin]; [|auto].
  unfold entry_ok in Hkv; now apply andb_true_iff in Hkv as [Hk _].
Qed.

Lemma resolve_nil (segs : list Segment) : map (resolve []) segs = segs.
Proof.
  induction segs as [|[t|n] segs IH]; simpl; congruence.
Qed.

Lemma replacePlaceholders_segments data : forall segs,
  forallb wf_segment segs = true ->
  forallb entry_ok data = true ->
  replacePlaceholders (flatten segs) data = render_spec data segs.
Proof.
  induction data as [|[k v] data IH]; intros segs Hwf Hd.
  - simpl. rewrite render_spec_flatten.
    now rewrite resolve_nil.
  - simpl in Hd; apply andb_true_iff in Hd as [Hkv Hd].
    unfold entry_ok in Hkv; simpl in Hkv; apply andb_true_iff in Hkv as [Hk Hv].
    apply plain_key_no_brace in Hk as [Ho Hc].
    unfold value_ok in Hv; apply andb_true_iff in Hv as [Hvo Hvd].
    apply negb_true_iff in Hvo; apply negb_true_iff in Hvd.
    change (replacePlaceholders (flatten segs) ((k, v) :: data))
      with (replacePlaceholders
              (replace_scan (token k) v 0 EmptyString (flatten segs)) data).
    rewrite (scan_segments k v Hc Hvd) by assumption.
    rewrite IH by (auto using wf_subst_tok).
    now rewrite render_spec_cons.
Qed.

(** C8 fails as stated: the entries are applied one after the other, so a
    value that holds the token of another entry brings that token into the
    output.  Here both names are supplied and the output is [{{a}}]. *)
Lemma replacePlaceholders_chained :
  let data := [("a", "x"); ("b", "{{a}}")] in
  forallb plain_key (map fst data) = true
  /\ replacePlaceholders "{{b}}" data = "{{a}}"
  /\ occurs (token "a") (replacePlaceholders "{{b}}" data) = true.
Proof. repeat split. Qed.

(** The same happens without any brace in the values when the braces of the
    template do not pair up into tokens, and with a [$] pattern in a value. *)
Example replacePlaceholders_loose_braces :
  replacePlaceholders "{{{{k}}k}}" [("k", "")] = "{{k}}".
Proof. reflexivity. Qed.

Example replacePlaceholders_dollar :
  replacePlaceholders "a {{nome}} b" [("nome", "[$&|$`|$'|$$|$1]")]
  = "a [{{nome}}|a | b|$|$1] b".
Proof. reflexivity. Qed.

(** C8 (amended).  On a template whose braces occur only in tokens
    [{{name}}], with keys made of letters, digits and underscores (not all
    digits) and values that hold neither an opening brace nor a dollar sign,
    [replacePlaceholders] is the simultaneous substitution: every occurrence
    of every supplied token is replaced by its value, no supplied token occurs
    in the output, and a token that is not supplied stays as it is. *)
Theorem replacePlaceholders_simultaneous (segs : list Segment)
        (data : list (string * string)) :
  forallb wf_segment segs = true ->
  forallb entry_ok data = true ->
  replacePlaceholders (flatten segs) data = render_spec data segs
  /\ (forall k, In k (map fst data) ->
       occurs (token k) (replacePlaceholders (flatten segs) data) = false)
  /\ (forall n, lookup n data = None -> render_segment data (Tok n) = token n).
Proof.
  intros Hwf Hd. split; [now apply replacePlaceholders_segments|]. split.
  - intros k Hin.
    rewrite replacePlaceholders_segments, render_spec_flatten by assumption.
    destruct (plain_key_no_brace k (plain_key_of_entry data k Hd Hin)) as [Ho Hc].
    apply occurs_segments; auto using wf_resolve, resolve_forgets.
  - intros n Hn; simpl; now rewrite Hn.
Qed.

Lemma replacePlaceholders_simultaneous_witness :
  replacePlaceholders "Eu, {{nome}}, CEP {{cep}} {{x}}"
    [("nome", "Ana"); ("cep", "01310-100")] = "Eu, Ana, CEP 01310-100 {{x}}"
  /\ occurs (token "cep")
       (replacePlaceholders "Eu, {{nome}}, CEP {{cep}} {{x}}"
          [("nome", "Ana"); ("cep", "01310-100")]) = false.
Proof.
  pose proof (replacePlaceholders_simultaneous
                [Txt "Eu, "; Tok "nome"; Txt ", CEP "; Tok "cep"; Txt " "; Tok "x"]
                [("nome", "Ana"); ("cep", "01310-100")]
                eq_refl eq_refl) as [H1 [H2 _]].
  split; [exact H1 | apply H2; simpl; auto].
Defined.

(** C9 fails as stated on an input with more than eight digits: nothing is
    cut off, so four digits follow the hyphen. *)
Lemma formatCep_nine_digits :
  formatCep "123456789" = "12345-6789"
  /\ is_cep_form (formatCep "123456789") = false.
Proof. split; reflexivity. Qed.

(** C9 (amended).  For every input string, [formatCep] strips the non-digit
    characters, left-pads the digits with zeros to at least eight and puts a
    hyphen after the fifth; the result has the form NNNNN-NNN exactly when the
    input holds at most eight digits.  "1234567" gives "01234-567",
    "01310-100" gives "01310-100" and "123" gives "00000-123". *)
Theorem formatCep_shape :
  (forall cep : string,
      let digits := filter_chars is_digit cep in
      let padded := padStart 8 "0" digits in
      formatCep cep = take 5 padded ++ "-" ++ drop 5 padded
      /\ all_chars is_digit padded = true
      /\ String.length padded = Nat.max 8 (String.length digits)
      /\ is_cep_form (formatCep cep) = (String.length digits <=? 8)%nat)
  /\ formatCep "1234567" = "01234-567"
  /\ formatCep "01310-100" = "01310-100"
  /\ formatCep "123" = "00000-123".
Proof.
  split; [|repeat split].
  intros cep digits padded.
  assert (Hd : all_chars is_digit padded = true) by apply padded_digits.
  assert (Hl : String.length padded = Nat.max 8 (String.length digits))
    by apply length_padStart.
  repeat split; try assumption.
  unfold formatCep, slice_to, slice_from.
  fold digits; fold padded.
  rewrite cep_form_of_split by (assumption || lia).
  rewrite Hl.
  destruct (Nat.eqb_spec (Nat.max 8 (String.length digits)) 8);
    destruct (Nat.leb_spec (String.length digits) 8); try reflexivity; lia.
Qed.

End TextFacts.

(* ================================================================== *)
(** * Part 5. Properties of the request service *)
(* ================================================================== *)

Module ServiceFacts.
Import Service Lifecycle.

(** ** Rows and identifiers *)

Lemma has_id_eq requestId r : has_id requestId r = true -> r.(req_id) = requestId.
Proof. unfold has_id; intros H; now apply String.eqb_eq in H. Qed.

Lemma find_has_id requestId l r :
  find (has_id requestId) l = Some r -> r.(req_id) = requestId.
Proof. intros H; apply find_some in H as [_ H]; now apply has_id_eq. Qed.

(** An update rewrites the row found under its identifier and leaves the
    rows found under the others. *)
Lemma find_update_rows x requestId g l :
  (forall r, (g r).(req_id) = r.(req_id)) ->
  find (has_id x) (update_rows requestId g l)
  = option_map (fun r => if has_id requestId r then g r else r)
               (find (has_id x) l).
Proof.
  intros Hg; induction l as [|r l IH]; [reflexivity|].
  simpl. destruct (has_id requestId r) eqn:Hr.
  - unfold has_id at 1. rewrite Hg. fold (has_id x r).
    destruct (has_id x r); [simpl; now rewrite Hr | apply IH].
  - destruct (has_id x r); [simpl; now rewrite Hr | apply IH].
Qed.

Lemma find_update_same requestId g l r :
  (forall r, (g r).(req_id) = r.(req_id)) ->
  find (has_id requestId) l = Some r ->
  find (has_id requestId) (update_rows requestId g l) = Some (g r).
Proof.
  intros Hg H. rewrite find_update_rows, H by assumption. simpl.
  apply find_some in H as [_ H]. now rewrite H.
Qed.

Lemma find_update_other x requestId g l :
  (forall r, (g r).(req_id) = r.(req_id)) ->
  x <> requestId ->
  find (has_id x) (update_rows requestId g l) = find (has_id x) l.
Proof.
  intros Hg Hne. rewrite find_update_rows by assumption.
  destruct (find (has_id x) l) as [r|] eqn:H; [simpl|reflexivity].
  apply find_has_id in H.
  destruct (has_id requestId r) eqn:Hr; [|reflexivity].
  apply has_id_eq in Hr. congruence.
Qed.

Lemma find_update_none x requestId g l :
  (forall r, (g r).(req_id) = r.(req_id)) ->
  find (has_id x) l = None ->
  find (has_id x) (update_rows requestId g l) = None.
Proof. intros Hg H. now rewrite find_update_rows, H. Qed.

Lemma set_status_id s r : (set_status s r).(req_id) = r.(req_id).
Proof. reflexivity. Qed.

Lemma set_generated_id u d a r : (set_generated u d a r).(req_id) = r.(req_id).
Proof. reflexivity. Qed.

Lemma Forall_update_rows (P : RequestEntity -> Prop) requestId g l :
  (forall r, P r -> P (g r)) -> Forall P l -> Forall P (update_rows requestId g l).
Proof.
  intros Hg H; induction H as [|r l Hr Hl IH]; constructor; [|exact IH].
  destruct (has_id requestId r); auto.
Qed.

(** ** The role check *)

(** C2, on the code.  The role check [user && !user.is_admin] lets a caller
    without profile through: [user] is [null] and the test is false.  Here
    the identifier "ghost" resolves to nobody; [getRequests] reads the table
    and returns it, and [generatePdf] generates the document of request r1. *)
Lemma unknown_caller_passes_role_check :
  findUser (Sample.env "" 5000%Z) "ghost" = None
  /\ getRequests (Sample.env "" 5000%Z) "ghost" Sample.db_submitted
     = (Ok [mkFormatRequest "r1" "Ana Souza" 1000%Z PENDING None None],
        logged QFind Sample.db_submitted)
  /\ map status
         (rows (snd (generatePdf (Sample.env "" 5000%Z) "ghost"
                       (mkGeneratePdfDto ["r1"]) Sample.db_submitted)))
     = [PROCESSING].
Proof. repeat split. Qed.

(** For a caller whose profile exists and has [is_admin = false], each of
    the four operations of the administrators throws the permission error and
    leaves the table and the list of repository calls as they were: nothing
    was read, nothing was written. *)
Lemma admin_only_operations_reject_non_admin
        (E : Env) (userId : string) (u : User) (db : Db) :
  E.(findUser) userId = Some u ->
  u.(is_admin) = false ->
  getRequests E userId db = (Throw (ForbiddenException msg_forbidden), db)
  /\ getRequestsWithDeclarations E userId db
     = (Throw (ForbiddenException msg_forbidden), db)
  /\ (forall dto, updateStatus E userId dto db
                  = (Throw (ForbiddenException msg_forbidden), db))
  /\ (forall dto, generatePdf E userId dto db
                  = (Throw (ForbiddenException
                              "You do not have permission to perform this action"),
                     db)).
Proof.
  intros Hu Ha.
  unfold getRequests, getRequestsWithDeclarations, updateStatus, generatePdf.
  rewrite Hu; simpl; rewrite Ha; simpl.
  repeat split.
Qed.

Lemma admin_only_operations_reject_non_admin_witness :
  getRequests (Sample.env "" 5000%Z) "u1" Sample.db_submitted
  = (Throw (ForbiddenException msg_forbidden), Sample.db_submitted).
Proof.
  exact (proj1 (admin_only_operations_reject_non_admin
                  (Sample.env "" 5000%Z) "u1" Sample.ana Sample.db_submitted
                  eq_refl eq_refl)).
Defined.

(** ** createRequest *)

Lemma createRequest_unknown_declaration (E : Env) declarationId userId db :
  is_admin_user (E.(findUser) userId) = false ->
  E.(findDeclaration) declarationId = None ->
  createRequest E declarationId userId db
  = (Throw (ForbiddenException "Declaration not found."), db).
Proof.
  intros Hu Hd. unfold createRequest. now rewrite Hu, Hd.
Qed.

(** C3, on the code.  Ana is not an administrator and no declaration has the
    identifier "d404": [createRequest] throws a [ForbiddenException], the
    class of the permission error, with the message "Declaration not found.";
    the table is untouched. *)
Theorem createRequest_missing_declaration_is_forbidden :
  is_admin_user (findUser (Sample.env "r9" 5000%Z) "u1") = false
  /\ findDeclaration (Sample.env "r9" 5000%Z) "d404" = None
  /\ createRequest (Sample.env "r9" 5000%Z) "d404" "u1" Sample.db_submitted
     = (Throw (ForbiddenException "Declaration not found."), Sample.db_submitted).
Proof.
  split; [reflexivity|]. split; [reflexivity|].
  now apply createRequest_unknown_declaration.
Qed.

Lemma existsb_false_filter {A} (p : A -> bool) l :
  existsb p l = false -> filter p l = [].
Proof.
  induction l as [|a l IH]; [reflexivity|].
  simpl; intros H; apply orb_false_iff in H as [Ha Hl].
  now rewrite Ha, IH.
Qed.

Lemma find_existsb {A} (p : A -> bool) l :
  existsb p l = match find p l with Some _ => true | None => false end.
Proof.
  induction l as [|a l IH]; [reflexivity|].
  simpl; destruct (p a); [reflexivity | apply IH].
Qed.

Lemma is_pending_for_inj userId declarationId userId' declarationId' r :
  is_pending_for userId declarationId r = true ->
  is_pending_for userId' declarationId' r = true ->
  userId' = userId /\ declarationId' = declarationId.
Proof.
  unfold is_pending_for, user_id_is; intros H H'.
  apply andb_true_iff in H as [H _]; apply andb_true_iff in H as [Hu Hd].
  apply andb_true_iff in H' as [H' _]; apply andb_true_iff in H' as [Hu' Hd'].
  destruct (user r); [|discriminate].
  apply String.eqb_eq in Hu, Hd, Hu', Hd'. split; congruence.
Qed.

Lemma createRequest_run (E : Env) declarationId userId d db :
  is_admin_user (E.(findUser) userId) = false ->
  E.(findDeclaration) declarationId = Some d ->
  createRequest E declarationId userId db
  = if existsb (is_pending_for userId declarationId) db.(rows)
    then (Throw (ConflictException msg_conflict),
          logged (QFindOnePending userId declarationId) db)
    else (Ok (create E.(newId) E.(now) (E.(findUser) userId) d),
          mkDb (db.(rows)
                  ++ [create E.(newId) E.(now) (E.(findUser) userId) d])
               (db.(queries) ++ [QFindOnePending userId declarationId]
                  ++ [QSave])).
Proof.
  intros Hu Hd. unfold createRequest. rewrite Hu, Hd.
  unfold bind, checkForPendingRequests, bind, repo_findOne_pending, ret.
  rewrite find_existsb.
  destruct (find (is_pending_for userId declarationId) (rows db));
    simpl; [reflexivity|].
  unfold repo_save; simpl. now rewrite <- app_assoc.
Qed.

Lemma is_pending_for_created (E : Env) userId declarationId u d U D :
  stores_consistent E ->
  E.(findUser) userId = Some u ->
  E.(findDeclaration) declarationId = Some d ->
  is_pending_for U D (create E.(newId) E.(now) (Some u) d)
  = String.eqb userId U && String.eqb declarationId D.
Proof.
  intros [Hcu Hcd] Hu Hd. unfold is_pending_for, user_id_is; simpl.
  now rewrite (Hcu _ _ Hu), (Hcd _ _ Hd), andb_true_r.
Qed.

(** C6 fails as stated: the check before the insertion looks for one PENDING
    request and does nothing about a second.  Ana submits r1, r1 is taken in
    hand, she submits r2, and r1 is put back to PENDING: the pair has two
    PENDING requests, [createRequest] answers Conflict and two remain. *)
Lemma createRequest_leaves_two_pending :
  reachable Sample.db_two_pending
  /\ pending_count "u1" "d1" (rows Sample.db_two_pending) = 2
  /\ createRequest (Sample.env "r3" 5000%Z) "d1" "u1" Sample.db_two_pending
     = (Throw (ConflictException msg_conflict),
        logged (QFindOnePending "u1" "d1") Sample.db_two_pending)
  /\ pending_count "u1" "d1"
       (rows (snd (createRequest (Sample.env "r3" 5000%Z) "d1" "u1"
                     Sample.db_two_pending))) = 2.
Proof.
  split; [eexists; reflexivity|]. repeat split.
Qed.

(** C6 (amended).  For a caller who has a profile and is not an
    administrator, and a declaration that exists: when the caller has a
    PENDING request for this declaration, [createRequest] throws Conflict and
    writes nothing; otherwise it appends one request, PENDING, without url,
    generation date or attendant.  When the stores answer with the
    identifiers they were asked for, the call adds one PENDING request to
    the pair of the caller if the pair had none, and none to any pair
    otherwise; so a table with at most one PENDING request per pair of user
    and declaration still has at most one per pair afterwards, and after a
    call that went through a second call for the same pair throws
    Conflict. *)
Theorem createRequest_one_pending_per_pair
        (E : Env) (declarationId userId : string) (u : User)
        (d : Declaration) (db : Db) :
  E.(findUser) userId = Some u ->
  u.(is_admin) = false ->
  E.(findDeclaration) declarationId = Some d ->
  let r := create E.(newId) E.(now) (Some u) d in
  let had := existsb (is_pending_for userId declarationId) db.(rows) in
  let db' := snd (createRequest E declarationId userId db) in
  (had = true ->
   createRequest E declarationId userId db
   = (Throw (ConflictException msg_conflict),
      logged (QFindOnePending userId declarationId) db))
  /\ (had = false ->
      createRequest E declarationId userId db
      = (Ok r, mkDb (db.(rows) ++ [r])
                    (db.(queries) ++ [QFindOnePending userId declarationId]
                       ++ [QSave])))
  /\ (r.(status) = PENDING /\ r.(url) = None /\ r.(generation_date) = None
      /\ r.(attendant) = None)
  /\ (stores_consistent E ->
      (forall U D,
          pending_count U D db'.(rows)
          = pending_count U D db.(rows)
            + (if negb had && String.eqb userId U && String.eqb declarationId D
               then 1 else 0))
      /\ (had = false -> pending_count userId declarationId db'.(rows) = 1)
      /\ (at_most_one_pending db.(rows) -> at_most_one_pending db'.(rows))
      /\ (had = false ->
          forall E' d',
            is_admin_user (E'.(findUser) userId) = false ->
            E'.(findDeclaration) declarationId = Some d' ->
            createRequest E' declarationId userId db'
            = (Throw (ConflictException msg_conflict),
               logged (QFindOnePending userId declarationId) db'))).
Proof.
  intros Hu Ha Hd r had db'.
  assert (Hadm : is_admin_user (findUser E userId) = false)
    by (rewrite Hu; exact Ha).
  pose proof (createRequest_run E declarationId userId d db Hadm Hd) as Hrun.
  rewrite Hu in Hrun. fold r had in Hrun.
  split; [intros He; now rewrite Hrun, He|].
  split; [intros He; now rewrite Hrun, He|].
  split; [repeat split|].
  intros Hcons.
  assert (Hcount : forall U D,
             pending_count U D db'.(rows)
             = pending_count U D db.(rows)
               + (if negb had && String.eqb userId U
                     && String.eqb declarationId D then 1 else 0)).
  { intros U D. unfold db'. rewrite Hrun.
    destruct had; simpl; [lia|].
    unfold pending_count. rewrite filter_app, length_app. simpl filter.
    unfold r. rewrite (is_pending_for_created E userId declarationId u d U D)
      by assumption.
    now destruct (String.eqb userId U && String.eqb declarationId D). }
  assert (Hzero : had = false -> pending_count userId declarationId db.(rows) = 0).
  { intros He. unfold pending_count.
    now rewrite (existsb_false_filter _ _ He). }
  split; [exact Hcount|]. split; [|split].
  - intros He. rewrite Hcount, (Hzero He), He, !String.eqb_refl. reflexivity.
  - intros Hone U D. rewrite Hcount.
    destruct had eqn:He; simpl; [specialize (Hone U D); lia|].
    destruct (String.eqb_spec userId U) as [<-|]; simpl;
      [|specialize (Hone U D); lia].
    destruct (String.eqb_spec declarationId D) as [<-|]; simpl;
      [|specialize (Hone userId D); lia].
    rewrite (Hzero eq_refl). lia.
  - intros He E' d' Hu' Hd'.
    rewrite (createRequest_run E' declarationId userId d' db' Hu' Hd').
    replace (existsb (is_pending_for userId declarationId) (rows db'))
      with true; [reflexivity|].
    unfold db'. rewrite Hrun, He. simpl rows.
    rewrite existsb_app. simpl existsb. unfold r.
    rewrite (is_pending_for_created E userId declarationId u d
               userId declarationId) by assumption.
    now rewrite !String.eqb_refl, orb_true_r.
Qed.

Lemma createRequest_one_pending_per_pair_witness :
  createRequest (Sample.env "r2" 6000%Z) "d1" "u1" Sample.db_submitted
  = (Throw (ConflictException msg_conflict),
     logged (QFindOnePending "u1" "d1") Sample.db_submitted).
Proof.
  exact (proj1 (createRequest_one_pending_per_pair
                  (Sample.env "r2" 6000%Z) "d1" "u1" Sample.ana
                  Sample.matricula Sample.db_submitted
                  eq_refl eq_refl eq_refl) eq_refl).
Defined.

(** ** updateStatus *)

(** One turn of the loop, case by case. *)
Lemma updateStatus_loop_cons target requestId rest requests db :
  updateStatus_loop target (requestId :: rest) requests db
  = match find (has_id requestId) db.(rows) with
    | None => (Throw TypeError, logged (QFindOneById requestId) db)
    | Some rd =>
        if is_skipped target rd.(status)
        then updateStatus_loop target rest requests
               (logged (QFindOneById requestId) db)
        else
          let db' :=
            logged (QFindOneById requestId)
              (mkDb (update_rows requestId (set_status target) db.(rows))
                    (queries (logged (QFindOneById requestId) db)
                       ++ [QUpdate requestId])) in
          match rd.(user) with
          | None => (Throw TypeError, db')
          | Some u =>
              updateStatus_loop target rest
                (requests ++ [mkFormatRequest requestId u.(name) rd.(createdAt)
                                target None None])
                db'
          end
    end.
Proof.
  simpl updateStatus_loop.
  unfold bind at 1. unfold getRequestById at 1, repo_findOne_by_id at 1.
  destruct (find (has_id requestId) (rows db)) as [rd|] eqn:Hf;
    [|reflexivity].
  unfold bind at 1. unfold nonnull at 1, ret at 1.
  destruct (is_skipped target (status rd)); [reflexivity|].
  unfold bind at 1. unfold repo_update at 1.
  unfold bind at 1. unfold getRequestById at 1, repo_findOne_by_id at 1.
  cbn [rows queries logged].
  rewrite (find_update_same requestId (set_status target) (rows db) rd
             (set_status_id target) Hf).
  unfold bind at 1. unfold nonnull at 1, ret at 1.
  unfold bind at 1. unfold format_updated, bind, nonnull. cbn [user set_status].
  destruct (user rd) as [u|]; reflexivity.
Qed.

(** C4, on the code.  The batch names an identifier that resolves to no
    request, then request r1, which is PROCESSING; the target is COMPLETED.
    The turn of the missing identifier throws and the call ends there: no
    list is returned and r1 stays PROCESSING. *)
Theorem updateStatus_batch_stops_at_missing_id :
  find (has_id "r0") (rows Sample.db_generated) = None
  /\ map status (rows Sample.db_generated) = [PROCESSING]
  /\ updateStatus (Sample.env "" 5000%Z) "adm"
                  (mkUpdateStatusDto COMPLETED ["r0"; "r1"]) Sample.db_generated
     = (Throw TypeError, logged (QFindOneById "r0") Sample.db_generated)
  /\ fst (updateStatus (Sample.env "" 5000%Z) "adm"
                       (mkUpdateStatusDto COMPLETED ["r1"]) Sample.db_generated)
     = Ok [mkFormatRequest "r1" "Ana Souza" 1000%Z COMPLETED None None].
Proof. repeat split. Qed.

Lemma updateStatus_loop_missing target missing : forall pre requests db,
  find (has_id missing) db.(rows) = None ->
  exists db', forall post,
    updateStatus_loop target (pre ++ missing :: post) requests db
    = (Throw TypeError, db').
Proof.
  induction pre as [|requestId pre IH]; intros requests db Hm.
  - exists (logged (QFindOneById missing) db); intros post.
    simpl app. now rewrite updateStatus_loop_cons, Hm.
  - destruct (find (has_id requestId) (rows db)) as [rd|] eqn:Hf.
    + destruct (is_skipped target (status rd)) eqn:Hs.
      * destruct (IH requests (logged (QFindOneById requestId) db) Hm)
          as [db' Hdb'].
        exists db'; intros post. simpl app.
        rewrite updateStatus_loop_cons, Hf, Hs. apply Hdb'.
      * destruct (user rd) as [u|] eqn:Hu.
        -- edestruct (IH (requests ++ [mkFormatRequest requestId u.(name)
                                         rd.(createdAt) target None None])%list
                         (logged (QFindOneById requestId)
                            (mkDb (update_rows requestId (set_status target)
                                     db.(rows))
                               (queries (logged (QFindOneById requestId) db)
                                  ++ [QUpdate requestId]))))
             as [db' Hdb'].
           { simpl. apply find_update_none; auto using set_status_id. }
           exists db'; intros post. simpl app.
           rewrite updateStatus_loop_cons, Hf, Hs. cbv zeta. rewrite Hu.
           apply Hdb'.
        -- eexists; intros post. simpl app.
           rewrite updateStatus_loop_cons, Hf, Hs. cbv zeta. rewrite Hu.
           reflexivity.
    + eexists; intros post. simpl app.
      rewrite updateStatus_loop_cons, Hf. reflexivity.
Qed.

(** C10.  When the list given to [updateStatus] holds an identifier that
    resolves to no request, the call throws (the read of [status] on the
    [null] that the lookup returned) instead of skipping it, and it ends
    there: whatever follows the identifier in the list, the outcome and the
    table are those of the list cut after it. *)
Theorem updateStatus_missing_id_aborts
        (E : Env) (userId : string) (target : RequestStatus)
        (pre post : list string) (missing : string) (db : Db) :
  is_non_admin (E.(findUser) userId) = false ->
  find (has_id missing) db.(rows) = None ->
  getRequestById missing db = (Ok None, logged (QFindOneById missing) db)
  /\ exists db',
      updateStatus E userId (mkUpdateStatusDto target (pre ++ missing :: post)) db
      = (Throw TypeError, db')
      /\ updateStatus E userId (mkUpdateStatusDto target (pre ++ [missing])) db
         = (Throw TypeError, db')
      /\ (pre = [] -> db' = logged (QFindOneById missing) db).
Proof.
  intros Hu Hm. split.
  - unfold getRequestById, repo_findOne_by_id. now rewrite Hm.
  - destruct (updateStatus_loop_missing target missing pre [] db Hm) as [db' H].
    exists db'. unfold updateStatus. rewrite Hu. cbn [upd_status upd_requestIds].
    repeat split; try apply H.
    intros ->. specialize (H []). simpl app in H.
    rewrite updateStatus_loop_cons, Hm in H. congruence.
Qed.

Lemma updateStatus_missing_id_aborts_witness :
  exists db',
    updateStatus (Sample.env "" 5000%Z) "adm"
                 (mkUpdateStatusDto COMPLETED ([] ++ "r0" :: ["r1"]))
                 Sample.db_generated
    = (Throw TypeError, db')
    /\ map status (rows db') = [PROCESSING].
Proof.
  destruct (updateStatus_missing_id_aborts (Sample.env "" 5000%Z) "adm"
              COMPLETED [] ["r1"] "r0" Sample.db_generated eq_refl eq_refl)
    as [_ [db' [H [_ Hdb']]]].
  exists db'. split; [exact H|]. now rewrite (Hdb' eq_refl).
Defined.

(** ** generatePdf *)

(** One turn of the loop, case by case: it never throws, and it either
    leaves the rows and the array alone or generates one document. *)
Lemma generatePdf_item_run E caller requestId requests db :
  generatePdf_item E caller requestId requests db
  = match find (has_id requestId) db.(rows) with
    | None => (Ok requests, logged (QFindOneById requestId) db)
    | Some rd =>
        if negb (status_eqb rd.(status) PENDING)
        then (Ok requests, logged (QFindOneById requestId) db)
        else
          match E.(findDeclaration) rd.(declaration).(decl_id) with
          | None => (Ok requests, logged (QFindOneById requestId) db)
          | Some d =>
              match rd.(user) with
              | None => (Ok requests, logged (QFindOneById requestId) db)
              | Some u =>
                  match publish (at_turn E requestId) requestId d u with
                  | inl _ => (Ok requests, logged (QFindOneById requestId) db)
                  | inr signedUrl =>
                      (Ok (requests
                             ++ [mkFormatRequest requestId u.(name)
                                   rd.(createdAt) PROCESSING (Some signedUrl)
                                   None])%list,
                       db_after_generation E caller requestId signedUrl db)
                  end
              end
          end
    end.
Proof.
  unfold generatePdf_item, try_catch, generatePdf_try.
  unfold bind at 1. unfold getRequestById at 1, repo_findOne_by_id at 1.
  destruct (find (has_id requestId) (rows db)) as [rd|] eqn:Hf;
    [|reflexivity].
  destruct (negb (status_eqb (status rd) PENDING)); [reflexivity|].
  destruct (findDeclaration E (decl_id (declaration rd))) as [d|];
    [|reflexivity].
  unfold bind at 1. unfold nonnull at 1.
  destruct (user rd) as [u|] eqn:Hu; [|reflexivity].
  unfold ret at 1. unfold bind at 1. unfold lift at 1.
  destruct (publish (at_turn E requestId) requestId d u) as [e|signedUrl]; [reflexivity|].
  unfold ret at 1. unfold bind at 1. unfold repo_update at 1.
  unfold bind at 1. unfold getRequestById at 1, repo_findOne_by_id at 1.
  cbn [rows queries logged].
  rewrite (find_update_same requestId (set_generated signedUrl (clock E requestId 2) caller)
             (rows db) rd (set_generated_id _ _ _) Hf).
  unfold bind, nonnull, ret, format_processed, bind, nonnull, ret.
  cbn [user set_generated createdAt status url]. rewrite Hu.
  reflexivity.
Qed.

Lemma generatePdf_loop_cons E caller requestId rest requests db :
  generatePdf_loop E caller (requestId :: rest) requests db
  = match generatePdf_item E caller requestId requests db with
    | (Ok requests', db') => generatePdf_loop E caller rest requests' db'
    | (Throw e, db') => (Throw e, db')
    end.
Proof. reflexivity. Qed.

Lemma generatePdf_cases E userId dto db :
  (exists e, generatePdf E userId dto db = (Throw e, db))
  \/ generatePdf E userId dto db
     = generatePdf_loop E (E.(findUser) userId) dto.(gen_requestIds) []
         db.
Proof.
  unfold generatePdf, ensure_tmpDir.
  destruct (is_non_admin (findUser E userId)); [left; eexists; reflexivity|].
  unfold bind at 1.
  destruct (existsSync E (tmpDir E)); [now right|].
  destruct (mkdirSync E (tmpDir E)); [left; eexists; reflexivity | now right].
Qed.

Lemma generated_from_refl l : generated_from l l.
Proof. intros requestId; now left. Qed.


Lemma generated_from_update E caller requestId signedUrl l rd :
  find (has_id requestId) l = Some rd -> rd.(status) = PENDING ->
  generated_from l (update_rows requestId
                      (set_generated signedUrl (E.(clock) requestId 2) caller) l).
Proof.
  intros Hf Hs x. destruct (String.eqb_spec x requestId) as [->|Hne].
  - right. exists rd, (set_generated signedUrl (clock E requestId 2) caller rd).
    repeat split; try assumption; try discriminate.
    now apply find_update_same; auto using set_generated_id.
  - left. now apply find_update_other; auto using set_generated_id.
Qed.

(** What one turn leaves behind. *)
Lemma generatePdf_item_spec E caller requestId requests db :
  exists out db',
    generatePdf_item E caller requestId requests db
    = (Ok (requests ++ out)%list, db')
    /\ batch_post [requestId] db.(rows) db'.(rows) out.
Proof.
  rewrite generatePdf_item_run.
  assert (Hskip : exists out db',
    (Ok requests, logged (QFindOneById requestId) db)
    = (Ok (requests ++ out)%list, db')
    /\ batch_post [requestId] db.(rows) db'.(rows) out).
  { exists [], (logged (QFindOneById requestId) db).
    rewrite app_nil_r. split; [reflexivity|].
    split; [apply generated_from_refl|].
    split; [intros v [] | intros x; now left]. }
  destruct (find (has_id requestId) (rows db)) as [rd|] eqn:Hf; [|exact Hskip].
  destruct (status_eqb (status rd) PENDING) eqn:Hs; simpl negb; cbv iota;
    [|exact Hskip].
  destruct (findDeclaration E (decl_id (declaration rd))) as [d|];
    [|exact Hskip].
  destruct (user rd) as [u|] eqn:Hu; [|exact Hskip].
  destruct (publish (at_turn E requestId) requestId d u) as [e|signedUrl]; [exact Hskip|].
  assert (Hp : status rd = PENDING) by (destruct (status rd); now try discriminate).
  eexists _, _. split; [reflexivity|]. split; [|split].
  - simpl. now apply generated_from_update with (rd := rd).
  - intros v [<-|[]]. cbn [fr_id fr_status fr_url].
    repeat split; try discriminate.
    + now left.
    + now exists rd.
    + exists (set_generated signedUrl (clock E requestId 2) caller rd).
      split; [|now split].
      simpl. now apply find_update_same; auto using set_generated_id.
  - intros x. destruct (String.eqb_spec x requestId) as [->|Hne].
    + right. eexists. split; [left; reflexivity | reflexivity].
    + left. simpl. now apply find_update_other; auto using set_generated_id.
Qed.




Lemma generatePdf_item_failure E caller requestId requests db rd d u e :
  find (has_id requestId) db.(rows) = Some rd ->
  E.(findDeclaration) rd.(declaration).(decl_id) = Some d ->
  rd.(user) = Some u ->
  publish (at_turn E requestId) requestId d u = inl e ->
  generatePdf_item E caller requestId requests db
  = (Ok requests, logged (QFindOneById requestId) db).
Proof.
  intros Hf Hd Hu Hp. rewrite generatePdf_item_run, Hf, Hd, Hu, Hp.
  now destruct (negb (status_eqb (status rd) PENDING)).
Qed.

(** A turn for one identifier leaves the request found under another. *)
Lemma generatePdf_item_other E caller requestId requests db x :
  x <> requestId ->
  find (has_id x) (rows (snd (generatePdf_item E caller requestId requests db)))
  = find (has_id x) db.(rows).
Proof.
  intros Hne. rewrite generatePdf_item_run.
  destruct (find (has_id requestId) (rows db)) as [rd|]; [|reflexivity].
  destruct (negb (status_eqb (status rd) PENDING)); [reflexivity|].
  destruct (findDeclaration E (decl_id (declaration rd))); [|reflexivity].
  destruct (user rd); [|reflexivity].
  destruct (publish (at_turn E requestId) requestId d u); [reflexivity|].
  simpl. now apply find_update_other; auto using set_generated_id.
Qed.

(** The two ways a turn can end. *)
Lemma generatePdf_item_shape E caller requestId requests db :
  generatePdf_item E caller requestId requests db
  = (Ok requests, logged (QFindOneById requestId) db)
  \/ exists rd d u signedUrl,
       find (has_id requestId) db.(rows) = Some rd
       /\ rd.(status) = PENDING
       /\ E.(findDeclaration) rd.(declaration).(decl_id) = Some d
       /\ rd.(user) = Some u
       /\ publish (at_turn E requestId) requestId d u = inr signedUrl
       /\ generatePdf_item E caller requestId requests db
          = (Ok (requests ++ [mkFormatRequest requestId u.(name)
                                rd.(createdAt) PROCESSING (Some signedUrl)
                                None])%list,
             db_after_generation E caller requestId signedUrl db).
Proof.
  rewrite generatePdf_item_run.
  destruct (find (has_id requestId) (rows db)) as [rd|]; [|now left].
  destruct (status_eqb (status rd) PENDING) eqn:Hs; simpl negb; cbv iota;
    [|now left].
  destruct (findDeclaration E (decl_id (declaration rd))) as [d|] eqn:Hd;
    [|now left].
  destruct (user rd) as [u|] eqn:Hu; [|now left].
  destruct (publish (at_turn E requestId) requestId d u) as [e|signedUrl] eqn:Hp;
    [now left|].
  right. exists rd, d, u, signedUrl. repeat split; try assumption.
  destruct (status rd); now try discriminate.
Qed.





(** A batch on a table where the document of [requestId] cannot be produced
    leaves that request and returns no view of it. *)
Lemma generatePdf_loop_failing_item E caller requestId rd d u e :
  E.(findDeclaration) rd.(declaration).(decl_id) = Some d ->
  rd.(user) = Some u ->
  publish (at_turn E requestId) requestId d u = inl e ->
  forall requestIds requests db,
    find (has_id requestId) db.(rows) = Some rd ->
    exists out db',
      generatePdf_loop E caller requestIds requests db
      = (Ok (requests ++ out)%list, db')
      /\ find (has_id requestId) db'.(rows) = Some rd
      /\ (forall v, In v out -> v.(fr_id) <> requestId).
Proof.
  intros Hd Hu Hp.
  induction requestIds as [|x rest IH]; intros requests db Hf.
  - exists [], db. simpl. rewrite app_nil_r. repeat split; auto.
  - destruct (String.eqb_spec x requestId) as [->|Hne].
    + destruct (IH requests (logged (QFindOneById requestId) db) Hf)
        as (out & db' & Hrun & Hkeep & Hv).
      exists out, db'. rewrite generatePdf_loop_cons.
      rewrite (generatePdf_item_failure E caller requestId requests db rd d u e)
        by assumption.
      auto.
    + destruct (generatePdf_item_spec E caller x requests db)
        as (out1 & db1 & Hrun1 & Hg1 & Hv1 & Hc1).
      pose proof (generatePdf_item_other E caller x requests db requestId
                    (not_eq_sym Hne)) as Hother.
      rewrite Hrun1 in Hother; simpl in Hother.
      destruct (IH (requests ++ out1)%list db1) as (out & db' & Hrun & Hkeep & Hv);
        [congruence|].
      exists (out1 ++ out)%list, db'.
      rewrite generatePdf_loop_cons, Hrun1, Hrun, app_assoc.
      repeat split; auto.
      intros v Hin; apply in_app_or in Hin as [Hin|Hin]; [|auto].
      destruct (Hv1 v Hin) as [[Hid|[]] _]. congruence.
Qed.

(** C7 fails as stated for a request that was generated once and put back to
    PENDING (see C1): its document cannot be written, the turn changes
    nothing, and the request stays PENDING with the url, the generation date
    and the attendant of the first generation, not with none. *)
Lemma generatePdf_failure_keeps_old_url :
  reachable Sample.db_pending_again
  /\ generatePdf (Sample.env_unwritable "" 5000%Z) "adm"
                 (mkGeneratePdfDto ["r1"]) Sample.db_pending_again
     = (Ok [], logged (QFindOneById "r1") Sample.db_pending_again)
  /\ exists r,
      find (has_id "r1")
           (rows (snd (generatePdf (Sample.env_unwritable "" 5000%Z) "adm"
                         (mkGeneratePdfDto ["r1"]) Sample.db_pending_again)))
      = Some r
      /\ r.(status) = PENDING
      /\ r.(url) = Some "https://blob/r1_2000.pdf"
      /\ r.(generation_date) = Some 2000%Z
      /\ r.(attendant) = Some Sample.bia.
Proof.
  split.
  - exists [OpCreateRequest (Sample.env "r1" 1000%Z) "d1" "u1";
            OpGeneratePdf (Sample.env "" 2000%Z) "adm" (mkGeneratePdfDto ["r1"]);
            OpUpdateStatus (Sample.env "" 3000%Z) "adm"
                           (mkUpdateStatusDto PENDING ["r1"])].
    reflexivity.
  - split; [reflexivity|]. eexists. split; [reflexivity|]. repeat split.
Qed.

(** C7 (amended).  Take a PENDING request whose declaration and user are
    found and whose document cannot be written or cannot be uploaded.  The
    turn of the loop for it ends without an exception, leaves the rows of the
    table and the array of results as they were, and the loop goes on with
    the next identifier; the request is stored as before: still PENDING, with
    the url, generation date and attendant it had, which are none for a
    request that had none.  A whole batch on that table returns, keeps the
    request as it is and returns no view of it. *)
Theorem generatePdf_failure_keeps_request_pending
        (E : Env) (caller : option User) (requestId : string)
        (rd : RequestEntity) (d : Declaration) (u : User) (e : Exception)
        (db : Db) :
  find (has_id requestId) db.(rows) = Some rd ->
  rd.(status) = PENDING ->
  E.(findDeclaration) rd.(declaration).(decl_id) = Some d ->
  rd.(user) = Some u ->
  let T := at_turn E requestId in
  let data := userData T u in
  let modifiedContent := Text.replacePlaceholders d.(content) data in
  let footerContent := Text.replacePlaceholders d.(footer) data in
  (generatePdfFile T (filePath T requestId) d modifiedContent footerContent
   = inl e
   \/ exists fileBuffer,
       generatePdfFile T (filePath T requestId) d modifiedContent footerContent
       = inr fileBuffer
       /\ T.(uploadStorage) "declaration" (fileName T requestId) fileBuffer
                            "application/pdf" = inl e) ->
  let db1 := logged (QFindOneById requestId) db in
  (forall requests,
      generatePdf_item E caller requestId requests db = (Ok requests, db1))
  /\ (forall rest requests,
        generatePdf_loop E caller (requestId :: rest) requests db
        = generatePdf_loop E caller rest requests db1)
  /\ rows db1 = rows db
  /\ (find (has_id requestId) (rows db1) = Some rd /\ rd.(status) = PENDING)
  /\ (rd.(url) = None -> rd.(generation_date) = None -> rd.(attendant) = None ->
      exists r', find (has_id requestId) (rows db1) = Some r'
                 /\ r'.(status) = PENDING /\ r'.(url) = None
                 /\ r'.(generation_date) = None /\ r'.(attendant) = None)
  /\ (forall requestIds,
        exists out db',
          generatePdf_loop E caller requestIds [] db = (Ok out, db')
          /\ find (has_id requestId) db'.(rows) = Some rd
          /\ (forall v, In v out -> v.(fr_id) <> requestId)).
Proof.
  intros Hf Hs Hd Hu T data modifiedContent footerContent Hfail db1.
  assert (Hp : publish T requestId d u = inl e).
  { unfold publish. fold data modifiedContent footerContent.
    destruct Hfail as [-> | (fileBuffer & -> & ->)]; reflexivity. }
  assert (Hitem : forall requests,
             generatePdf_item E caller requestId requests db = (Ok requests, db1))
    by (intros; now apply generatePdf_item_failure with rd d u e).
  split; [exact Hitem|].
  split; [intros rest requests; now rewrite generatePdf_loop_cons, Hitem|].
  split; [reflexivity|].
  split; [now split|].
  split; [intros Hurl Hgen Hatt; exists rd; auto|].
  intros requestIds.
  destruct (generatePdf_loop_failing_item E caller requestId rd d u e Hd Hu Hp
              requestIds [] db Hf) as (out & db' & Hrun & Hkeep & Hv).
  exists out, db'. auto.
Qed.

Lemma generatePdf_failure_keeps_request_pending_witness :
  generatePdf (Sample.env_unwritable "" 5000%Z) "adm" (mkGeneratePdfDto ["r1"])
              Sample.db_submitted
  = (Ok [], logged (QFindOneById "r1") Sample.db_submitted)
  /\ generatePdf (Sample.env_offline "" 5000%Z) "adm" (mkGeneratePdfDto ["r1"])
                 Sample.db_submitted
     = (Ok [], logged (QFindOneById "r1") Sample.db_submitted).
Proof.
  split.
  - exact (proj1 (proj2
      (generatePdf_failure_keeps_request_pending
         (Sample.env_unwritable "" 5000%Z) (Some Sample.bia) "r1"
         (create "r1" 1000%Z (Some Sample.ana) Sample.matricula)
         Sample.matricula Sample.ana (Error "EACCES") Sample.db_submitted
         eq_refl eq_refl eq_refl eq_refl (or_introl eq_refl))) [] []).
  - exact (proj1 (proj2
      (generatePdf_failure_keeps_request_pending
         (Sample.env_offline "" 5000%Z) (Some Sample.bia) "r1"
         (create "r1" 1000%Z (Some Sample.ana) Sample.matricula)
         Sample.matricula Sample.ana (Error "ECONNREFUSED") Sample.db_submitted
         eq_refl eq_refl eq_refl eq_refl
         (or_intror (ex_intro _ "%PDF-1.3" (conj eq_refl eq_refl))))) [] []).
Defined.

(** ** The invariant of the life cycle *)

Lemma createRequest_rows E declarationId userId db :
  rows (snd (createRequest E declarationId userId db)) = db.(rows)
  \/ exists d,
      rows (snd (createRequest E declarationId userId db))
      = (db.(rows) ++ [create E.(newId) E.(now) (E.(findUser) userId) d])%list.
Proof.
  unfold createRequest.
  destruct (is_admin_user (findUser E userId)); [now left|].
  destruct (findDeclaration E declarationId) as [d|]; [|now left].
  unfold bind, checkForPendingRequests, bind, repo_findOne_pending, ret.
  destruct (find (is_pending_for userId declarationId) (rows db));
    simpl; [now left | right; now exists d].
Qed.

Lemma updateStatus_loop_Forall (P : RequestEntity -> Prop) target :
  (forall r, P r -> P (set_status target r)) ->
  forall requestIds requests db,
    Forall P db.(rows) ->
    Forall P (rows (snd (updateStatus_loop target requestIds requests db))).
Proof.
  intros Hset; induction requestIds as [|requestId rest IH];
    intros requests db HP; [exact HP|].
  rewrite updateStatus_loop_cons.
  destruct (find (has_id requestId) (rows db)) as [rd|]; [|exact HP].
  destruct (is_skipped target (status rd)); [now apply IH|].
  cbv zeta.
  destruct (user rd); [apply IH|]; simpl; now apply Forall_update_rows.
Qed.

Lemma generatePdf_loop_Forall (P : RequestEntity -> Prop) E caller :
  (forall r signedUrl at_, P r -> P (set_generated signedUrl at_ caller r)) ->
  forall requestIds requests db,
    Forall P db.(rows) ->
    Forall P (rows (snd (generatePdf_loop E caller requestIds requests db))).
Proof.
  intros Hset; induction requestIds as [|requestId rest IH];
    intros requests db HP; [exact HP|].
  rewrite generatePdf_loop_cons, generatePdf_item_run.
  destruct (find (has_id requestId) (rows db)) as [rd|]; [|now apply IH].
  destruct (negb (status_eqb (status rd) PENDING)); [now apply IH|].
  destruct (findDeclaration E (decl_id (declaration rd))); [|now apply IH].
  destruct (user rd); [|now apply IH].
  destruct (publish (at_turn E requestId) requestId d u); [now apply IH|].
  apply IH. simpl. apply Forall_update_rows; auto.
Qed.

Lemma run_op_lifecycle op db :
  avoids_pending_target op ->
  Forall lifecycle_ok db.(rows) -> Forall lifecycle_ok (rows (run_op op db)).
Proof.
  intros Hop HP. destruct op as [E declarationId userId|E userId dto|E userId dto];
    simpl in *.
  - destruct (createRequest_rows E declarationId userId db) as [->|[d ->]];
      [exact HP|].
    apply Forall_app; split; [exact HP|].
    constructor; [|constructor].
    split; simpl; [auto | intros H; now contradiction H].
  - unfold updateStatus.
    destruct (is_non_admin (findUser E userId)); [exact HP|].
    apply updateStatus_loop_Forall; [|exact HP].
    intros r _; split; simpl; [intros H; now contradiction Hop | auto].
  - destruct (generatePdf_cases E userId dto db) as [[e ->]| ->]; [exact HP|].
    apply generatePdf_loop_Forall; [|exact HP].
    intros r signedUrl at_ _; split; simpl;
      [discriminate | intros _; discriminate].
Qed.

Lemma run_ops_lifecycle : forall ops db,
  Forall avoids_pending_target ops ->
  Forall lifecycle_ok db.(rows) -> Forall lifecycle_ok (rows (run_ops ops db)).
Proof.
  induction ops as [|op ops IH]; intros db Hops HP; [exact HP|].
  inversion Hops as [|? ? Hop Hrest]; subst.
  simpl. apply IH; [exact Hrest|]. now apply run_op_lifecycle.
Qed.

(** C1 fails as stated: [updateStatus] takes PENDING as a target like any
    other status.  Request r1 is submitted, its document is generated, and an
    administrator then sets it back to PENDING: it is PENDING with a URL. *)
Lemma updateStatus_to_pending_keeps_url :
  let ops :=
    [OpCreateRequest (Sample.env "r1" 1000%Z) "d1" "u1";
     OpGeneratePdf (Sample.env "" 2000%Z) "adm" (mkGeneratePdfDto ["r1"]);
     OpUpdateStatus (Sample.env "" 3000%Z) "adm"
                    (mkUpdateStatusDto PENDING ["r1"])] in
  reachable (run_ops ops empty_db)
  /\ exists r, In r (rows (run_ops ops empty_db))
               /\ r.(status) = PENDING
               /\ r.(url) = Some "https://blob/r1_2000.pdf"
               /\ r.(generation_date) = Some 2000%Z
               /\ ~ lifecycle_ok r.
Proof.
  intros ops. split; [now exists ops|].
  eexists. split; [left; reflexivity|].
  repeat split. intros [H _]. now destruct (H eq_refl).
Qed.

(** C1 (amended).  [createRequest], [generatePdf] and [updateStatus] with a
    target other than PENDING each keep the invariant "PENDING implies no url
    and no generation date; a url implies not PENDING" on every request, so
    it holds for every request of every table reached from the empty one
    through these operations. *)
Theorem lifecycle_invariant_without_pending_target :
  (forall op db,
      avoids_pending_target op ->
      (forall r, In r db.(rows) -> lifecycle_ok r) ->
      forall r, In r (rows (run_op op db)) -> lifecycle_ok r)
  /\ (forall ops,
        Forall avoids_pending_target ops ->
        forall r, In r (rows (run_ops ops empty_db)) -> lifecycle_ok r).
Proof.
  split.
  - intros op db Hop HP. apply Forall_forall.
    apply run_op_lifecycle; [exact Hop | now apply Forall_forall].
  - intros ops Hops. apply Forall_forall.
    apply run_ops_lifecycle; [exact Hops | constructor].
Qed.

Lemma lifecycle_invariant_without_pending_target_witness :
  lifecycle_ok (create "r2" 4000%Z (Some Sample.ana) Sample.matricula).
Proof.
  apply (proj2 lifecycle_invariant_without_pending_target
           [OpCreateRequest (Sample.env "r1" 1000%Z) "d1" "u1";
            OpGeneratePdf (Sample.env "" 2000%Z) "adm" (mkGeneratePdfDto ["r1"]);
            OpUpdateStatus (Sample.env "" 3000%Z) "adm"
                           (mkUpdateStatusDto COMPLETED ["r1"]);
            OpCreateRequest (Sample.env "r2" 4000%Z) "d1" "u1"]).
  - repeat constructor; simpl; discriminate.
  - right; left; reflexivity.
Defined.

End ServiceFacts.

(* ================================================================== *)
(** * Part 6. Further properties of the text helpers *)
(* ================================================================== *)

Module TextMore.
Import Text TextFacts.

Lemma filter_chars_app p (a b : string) :
  filter_chars p (a ++ b) = filter_chars p a ++ filter_chars p b.
Proof.
  induction a as [|c a IH]; simpl; [reflexivity|].
  rewrite IH. now destruct (p c).
Qed.

Lemma filter_chars_all p (s : string) :
  all_chars p s = true -> filter_chars p s = s.
Proof.
  induction s as [|c s IH]; simpl; [reflexivity|].
  intros H; apply andb_true_iff in H as [Hc Hs]. now rewrite Hc, IH.
Qed.

Lemma take_drop n (s : string) : take n s ++ drop n s = s.
Proof.
  revert s; induction n as [|n IH]; intros [|c s]; simpl; try reflexivity.
  now rewrite IH.
Qed.

Lemma padStart_long n c (s : string) :
  n <= String.length s -> padStart n c s = s.
Proof.
  intros H. unfold padStart. now replace (n - String.length s) with 0 by lia.
Qed.

(** X1.  [formatCep] looks at the digits of its input only, and applying it
    to its own result changes nothing. *)
Theorem formatCep_idempotent (cep : string) :
  formatCep (filter_chars is_digit cep) = formatCep cep
  /\ formatCep (formatCep cep) = formatCep cep.
Proof.
  assert (Hdig : filter_chars is_digit (filter_chars is_digit cep)
                 = filter_chars is_digit cep)
    by (apply filter_chars_all, all_chars_filter).
  split; [unfold formatCep; now rewrite Hdig|].
  unfold formatCep at 2 3. unfold slice_to, slice_from.
  set (p := padStart 8 "0" (filter_chars is_digit cep)).
  assert (Hp : all_chars is_digit p = true) by apply padded_digits.
  assert (Hl : 8 <= String.length p)
    by (unfold p; rewrite length_padStart; lia).
  unfold formatCep, slice_to, slice_from.
  replace (filter_chars is_digit (take 5 p ++ "-" ++ drop 5 p)) with p.
  - now rewrite padStart_long.
  - rewrite !filter_chars_app.
    rewrite (filter_chars_all is_digit (take 5 p)) by now apply all_chars_take.
    rewrite (filter_chars_all is_digit (drop 5 p)) by now apply all_chars_drop.
    change (filter_chars is_digit "-" ++ drop 5 p) with (drop 5 p).
    now rewrite take_drop.
Qed.

(** One [replace] call on a text where the pattern does not occur. *)
Lemma replace_scan_absent pat v : forall (s before : string),
  occurs pat s = false -> replace_scan pat v 0 before s = s.
Proof.
  induction s as [|c s IH]; intros before H; [reflexivity|].
  change (occurs pat (String c s))
    with (prefix pat (String c s) || occurs pat s) in H.
  apply orb_false_iff in H as [Hp Ho].
  change (replace_scan pat v 0 before (String c s))
    with (if prefix pat (String c s)
          then getSubstitution pat before
                 (drop (String.length pat) (String c s)) v
               ++ replace_scan pat v (String.length pat - 1)
                    (before ++ String c EmptyString) s
          else String c (replace_scan pat v 0
                           (before ++ String c EmptyString) s)).
  now rewrite Hp, IH.
Qed.

(** X2.  A template in which none of the supplied tokens occurs is returned
    as it is, whatever the values are. *)
Theorem replacePlaceholders_absent_tokens (template : string)
        (data : list (string * string)) :
  forallb (fun kv => plain_key (fst kv)
                     && negb (occurs (token (fst kv)) template)) data = true ->
  replacePlaceholders template data = template.
Proof.
  induction data as [|[k v] data IH]; intros H; [reflexivity|].
  simpl in H. apply andb_true_iff in H as [Hk Hd].
  apply andb_true_iff in Hk as [_ Hk]. apply negb_true_iff in Hk.
  change (replacePlaceholders template ((k, v) :: data))
    with (replacePlaceholders
            (replace_scan (token k) v 0 EmptyString template) data).
  rewrite replace_scan_absent by assumption. now apply IH.
Qed.

Lemma replacePlaceholders_absent_tokens_witness :
  replacePlaceholders "Sem marcadores, so {{x}} e $"
                      [("nome", "$&"); ("cep", "{{nome}}")]
  = "Sem marcadores, so {{x}} e $".
Proof.
  exact (replacePlaceholders_absent_tokens "Sem marcadores, so {{x}} e $"
           [("nome", "$&"); ("cep", "{{nome}}")] eq_refl).
Defined.

Lemma value_ok_digits (s : string) :
  all_chars is_digit s = true ->
  has_char "{" s = false /\ has_char "$" s = false.
Proof. intros H; split; eapply has_char_none; eauto. Qed.

Lemma value_ok_formatCep (cep : string) : value_ok (formatCep cep) = true.
Proof.
  unfold formatCep, slice_to, slice_from.
  set (p := padStart 8 "0" (filter_chars is_digit cep)).
  assert (Hp : all_chars is_digit p = true) by apply padded_digits.
  destruct (value_ok_digits (take 5 p) (all_chars_take _ 5 _ Hp)) as [Ha1 Ha2].
  destruct (value_ok_digits (drop 5 p) (all_chars_drop _ 5 _ Hp)) as [Hb1 Hb2].
  unfold value_ok. rewrite !has_char_app, Ha1, Ha2, Hb1, Hb2. reflexivity.
Qed.

Lemma value_ok_app (a b : string) :
  value_ok a = true -> value_ok b = true -> value_ok (a ++ b) = true.
Proof.
  unfold value_ok; intros Ha Hb.
  apply andb_true_iff in Ha as [Ha1 Ha2]; apply andb_true_iff in Hb as [Hb1 Hb2].
  apply negb_true_iff in Ha1, Ha2, Hb1, Hb2.
  now rewrite !has_char_app, Ha1, Ha2, Hb1, Hb2.
Qed.

End TextMore.

(* ================================================================== *)
(** * Part 7. Further properties of the request service *)
(* ================================================================== *)

Module ServiceMore.
Import Service Lifecycle Effects ServiceFacts.

(** ** The listings *)

Lemma insert_desc_perm key r l : Permutation (insert_desc key r l) (r :: l).
Proof.
  induction l as [|x l IH]; simpl; [reflexivity|].
  destruct (key x <? key r)%Z; [reflexivity|].
  rewrite IH. apply perm_swap.
Qed.

Lemma sort_desc_perm key l : Permutation (sort_desc key l) l.
Proof.
  induction l as [|x l IH]; simpl; [reflexivity|].
  rewrite insert_desc_perm. now constructor.
Qed.

Lemma insert_desc_sorted key r l :
  desc_sorted key l -> desc_sorted key (insert_desc key r l).
Proof.
  unfold desc_sorted. induction 1 as [|x l Hs IH Hx]; simpl.
  - constructor; constructor.
  - destruct (Z.ltb_spec (key x) (key r)) as [Hlt|Hge].
    + constructor; [now constructor|].
      constructor; [lia|].
      eapply Forall_impl; [|exact Hx]. simpl; intros; lia.
    + constructor; [exact IH|].
      eapply Permutation_Forall;
        [symmetry; apply insert_desc_perm|].
      constructor; [lia | exact Hx].
Qed.

Lemma sort_desc_sorted key l : desc_sorted key (sort_desc key l).
Proof.
  induction l as [|x l IH]; simpl; [constructor|].
  now apply insert_desc_sorted.
Qed.

Lemma forallb_perm {A} (f : A -> bool) l l' :
  Permutation l l' -> forallb f l = forallb f l'.
Proof.
  induction 1 as [|x l l' _ IH|x y l|l l' l'' _ IH1 _ IH2]; simpl.
  - reflexivity.
  - now rewrite IH.
  - now rewrite !andb_assoc, (andb_comm (f y)).
  - congruence.
Qed.

Lemma mapM_format_request l db :
  mapM format_request l db
  = if forallb has_user l then (Ok (map listed l), db)
    else (Throw TypeError, db).
Proof.
  induction l as [|r l IH]; [reflexivity|].
  simpl mapM. unfold bind at 1. unfold format_request at 1.
  unfold bind at 1. unfold nonnull at 1. simpl forallb. simpl map.
  unfold has_user at 1, listed at 1, user_name.
  destruct (user r) as [u|]; [|reflexivity].
  unfold ret at 1. unfold ret at 1. unfold bind at 1. rewrite IH.
  now destruct (forallb has_user l).
Qed.

Lemma mapM_format_generated l db :
  mapM format_generated l db
  = if forallb has_user l then (Ok (map listed_generated l), db)
    else (Throw TypeError, db).
Proof.
  induction l as [|r l IH]; [reflexivity|].
  simpl mapM. unfold bind at 1. unfold format_generated at 1.
  unfold bind at 1. unfold nonnull at 1. simpl forallb. simpl map.
  unfold has_user at 1, listed_generated at 1, user_name.
  destruct (user r) as [u|]; [|reflexivity].
  unfold ret at 1. unfold ret at 1. unfold bind at 1. rewrite IH.
  now destruct (forallb has_user l).
Qed.

(** X3.  For a caller that passes the role check, [getRequests] returns one
    view per stored request, newest first, when every request has its user;
    a single request without user makes the whole call throw.  The call
    writes nothing. *)
Theorem getRequests_newest_first (E : Env) (userId : string) (db : Db) :
  is_non_admin (E.(findUser) userId) = false ->
  exists l,
    Permutation l db.(rows)
    /\ desc_sorted createdAt l
    /\ getRequests E userId db
       = (if forallb has_user db.(rows) then Ok (map listed l)
          else Throw TypeError,
          logged QFind db).
Proof.
  intros Hu. exists (sort_desc createdAt db.(rows)).
  split; [apply sort_desc_perm|]. split; [apply sort_desc_sorted|].
  unfold getRequests. rewrite Hu.
  unfold bind, repo_find. rewrite mapM_format_request.
  rewrite (forallb_perm has_user _ _ (sort_desc_perm createdAt (rows db))).
  now destruct (forallb has_user (rows db)).
Qed.

Lemma getRequests_newest_first_witness :
  exists l,
    Permutation l (rows Sample.db_two)
    /\ getRequests (Sample.env "" 5000%Z) "adm" Sample.db_two
       = (Ok (map listed l), logged QFind Sample.db_two).
Proof.
  destruct (getRequests_newest_first (Sample.env "" 5000%Z) "adm"
              Sample.db_two eq_refl) as (l & Hp & _ & Hrun).
  exists l. split; [exact Hp | exact Hrun].
Defined.

Lemma generated_rows_dated since l :
  forall r, In r (filter (is_generated_since since) l) ->
    In r l
    /\ exists link d, r.(url) = Some link /\ r.(generation_date) = Some d
                      /\ (since < d)%Z.
Proof.
  intros r Hin. apply filter_In in Hin as [Hin Hg]. split; [exact Hin|].
  unfold is_generated_since in Hg.
  destruct (url r) as [link|]; [|discriminate].
  destruct (generation_date r) as [d|]; [|discriminate].
  exists link, d. repeat split. now apply Z.ltb_lt.
Qed.

(** X4.  For a caller that passes the role check,
    [getRequestsWithDeclarations] selects the requests that have a url and a
    generation date later than the limit, and no other; the limit is the
    date of the call moved seven days back in the zone of the server, which
    is 604800000 milliseconds before the call when the zone has the same
    offset at both ends.  A request generated exactly at the limit is left
    out.  The selected requests are returned latest generation first, each
    view with its url and date, when all of them have their user; one of
    them without user makes the call throw. *)
Theorem getRequestsWithDeclarations_recent (E : Env) (userId : string) (db : Db) :
  is_non_admin (E.(findUser) userId) = false ->
  let since := setDate_back E 7 E.(now) in
  exists l,
    getRequestsWithDeclarations E userId db
    = (if forallb has_user l then Ok (map listed_generated l)
       else Throw TypeError,
       logged (QFindGenerated since) db)
    /\ desc_sorted generation_key l
    /\ Permutation l (filter (is_generated_since since) db.(rows))
    /\ (forall r, In r l <->
                  In r db.(rows)
                  /\ exists link d, r.(url) = Some link
                                    /\ r.(generation_date) = Some d
                                    /\ (since < d)%Z)
    /\ (forall r, r.(generation_date) = Some since -> ~ In r l)
    /\ (E.(zoneOffsetOfLocal)
          (E.(now) + E.(zoneOffset) E.(now) - 7 * msPerDay)%Z
        = E.(zoneOffset) E.(now) ->
        since = (E.(now) - 604800000)%Z).
Proof.
  intros Hu since.
  set (found := filter (is_generated_since since) db.(rows)).
  assert (Hperm : Permutation (sort_desc generation_key found) found)
    by apply sort_desc_perm.
  assert (Hiff : forall r, In r (sort_desc generation_key found) <->
                   In r db.(rows)
                   /\ exists link d, r.(url) = Some link
                                     /\ r.(generation_date) = Some d
                                     /\ (since < d)%Z).
  { intros r. split.
    - intros Hr. apply (Permutation_in _ Hperm) in Hr.
      now apply generated_rows_dated in Hr.
    - intros (Hin & link & d & Hl & Hd & Hlt).
      apply (Permutation_in _ (Permutation_sym Hperm)).
      apply filter_In. split; [exact Hin|].
      unfold is_generated_since. rewrite Hl, Hd. now apply Z.ltb_lt. }
  exists (sort_desc generation_key found).
  split.
  { unfold getRequestsWithDeclarations. rewrite Hu.
    unfold bind, repo_find_generated. fold since. fold found.
    rewrite mapM_format_generated.
    now destruct (forallb has_user (sort_desc generation_key found)). }
  split; [apply sort_desc_sorted|]. split; [exact Hperm|].
  split; [exact Hiff|]. split.
  - intros r Hd Hl. apply Hiff in Hl as (_ & link & d & _ & Hd' & Hlt).
    rewrite Hd in Hd'. injection Hd' as <-. lia.
  - intros Hz. unfold since, setDate_back. cbv zeta.
    rewrite Hz. unfold msPerDay. lia.
Qed.

Lemma getRequestsWithDeclarations_recent_witness :
  exists l,
    getRequestsWithDeclarations (Sample.env "" 5000%Z) "adm" Sample.db_two
    = (if forallb has_user l then Ok (map listed_generated l)
       else Throw TypeError,
       logged (QFindGenerated (5000 - 604800000)%Z) Sample.db_two)
    /\ List.length l = 1.
Proof.
  destruct (getRequestsWithDeclarations_recent (Sample.env "" 5000%Z) "adm"
              Sample.db_two eq_refl) as (l & Hrun & _ & Hp & _).
  exists l. split; [exact Hrun|].
  now rewrite (Permutation_length Hp).
Defined.

(** X5.  For a caller who is not an administrator, [getRequestsByUser] never
    throws: it returns the requests whose user has the identifier of the
    caller, all of them and no other, newest first; the name of the attendant
    is the empty string for a request that has none. *)
Theorem getRequestsByUser_own_requests (E : Env) (userId : string) (db : Db) :
  is_admin_user (E.(findUser) userId) = false ->
  exists l,
    getRequestsByUser E userId db
    = (Ok (map format_user_request l), logged (QFindByUser userId) db)
    /\ Permutation l (filter (user_id_is userId) db.(rows))
    /\ desc_sorted createdAt l
    /\ (forall r, In r l <-> In r db.(rows) /\ user_id_is userId r = true)
    /\ (forall r, In r l -> r.(attendant) = None ->
                  (format_user_request r).(ur_attendantName) = "").
Proof.
  intros Hu.
  assert (Hperm : Permutation
                    (sort_desc createdAt (filter (user_id_is userId) db.(rows)))
                    (filter (user_id_is userId) db.(rows)))
    by apply sort_desc_perm.
  exists (sort_desc createdAt (filter (user_id_is userId) db.(rows))).
  split; [unfold getRequestsByUser; now rewrite Hu|].
  split; [exact Hperm|]. split; [apply sort_desc_sorted|]. split.
  - intros r. rewrite <- filter_In. split; intros H.
    + now apply (Permutation_in _ Hperm).
    + now apply (Permutation_in _ (Permutation_sym Hperm)).
  - intros r _ Ha. unfold format_user_request, attendant_name; simpl.
    now rewrite Ha.
Qed.

Lemma getRequestsByUser_own_requests_witness :
  exists l,
    getRequestsByUser (Sample.env "" 5000%Z) "u1" Sample.db_two
    = (Ok (map format_user_request l), logged (QFindByUser "u1") Sample.db_two)
    /\ List.length l = 2.
Proof.
  destruct (getRequestsByUser_own_requests (Sample.env "" 5000%Z) "u1"
              Sample.db_two eq_refl) as (l & Hrun & Hp & _).
  exists l. split; [exact Hrun|].
  now rewrite (Permutation_length Hp).
Defined.

(** X6.  The two operations meant for the users themselves turn an
    administrator away: for a caller whose profile has [is_admin = true],
    [createRequest] and [getRequestsByUser] throw the permission error before
    any call on the repository, whatever the declaration is. *)
Theorem user_operations_reject_admin
        (E : Env) (userId : string) (u : User) (db : Db) :
  E.(findUser) userId = Some u ->
  u.(is_admin) = true ->
  (forall declarationId,
      createRequest E declarationId userId db
      = (Throw (ForbiddenException
                  "You do not have permission to perform this action. 4"), db))
  /\ getRequestsByUser E userId db
     = (Throw (ForbiddenException msg_forbidden), db).
Proof.
  intros Hu Ha. unfold createRequest, getRequestsByUser.
  rewrite Hu; simpl; rewrite Ha. split; reflexivity.
Qed.

Lemma user_operations_reject_admin_witness :
  createRequest (Sample.env "r9" 5000%Z) "d404" "adm" Sample.db_two
  = (Throw (ForbiddenException
              "You do not have permission to perform this action. 4"),
     Sample.db_two).
Proof.
  exact (proj1 (user_operations_reject_admin (Sample.env "r9" 5000%Z) "adm"
                  Sample.bia Sample.db_two eq_refl eq_refl) "d404").
Defined.

(** ** What updateStatus does to the table *)

Lemma set_status_twice t r : set_status t (set_status t r) = set_status t r.
Proof. reflexivity. Qed.

Lemma status_moved_refl t l : status_moved t l l.
Proof. intros x; now left. Qed.

Lemma status_moved_trans t l1 l2 l3 :
  status_moved t l1 l2 -> status_moved t l2 l3 -> status_moved t l1 l3.
Proof.
  intros H12 H23 x.
  destruct (H12 x) as [E12|(r & H1 & Hs & H2)];
    destruct (H23 x) as [E23|(r' & H2' & Hs' & H3)].
  - left; congruence.
  - right; exists r'; repeat split; try assumption; congruence.
  - right; exists r; repeat split; try assumption; congruence.
  - right; exists r; repeat split; try assumption.
    rewrite H2 in H2'; injection H2' as <-. exact H3.
Qed.

Lemma status_moved_update t requestId l rd :
  find (has_id requestId) l = Some rd ->
  is_skipped t rd.(status) = false ->
  status_moved t l (update_rows requestId (set_status t) l).
Proof.
  intros Hf Hs x. destruct (String.eqb_spec x requestId) as [->|Hne].
  - right; exists rd; repeat split; try assumption.
    now apply find_update_same; auto using set_status_id.
  - left. now apply find_update_other; auto using set_status_id.
Qed.

Lemma updateStatus_loop_moves target : forall requestIds requests db,
  status_moved target db.(rows)
    (rows (snd (updateStatus_loop target requestIds requests db))).
Proof.
  induction requestIds as [|requestId rest IH]; intros requests db;
    [apply status_moved_refl|].
  rewrite updateStatus_loop_cons.
  destruct (find (has_id requestId) (rows db)) as [rd|] eqn:Hf;
    [|apply status_moved_refl].
  destruct (is_skipped target (status rd)) eqn:Hs;
    [exact (IH requests (logged (QFindOneById requestId) db))|].
  cbv zeta.
  destruct (user rd) as [u|].
  - eapply status_moved_trans; [|apply IH].
    simpl. now apply status_moved_update with rd.
  - simpl. now apply status_moved_update with rd.
Qed.

(** X7.  Whatever the caller, the list and the target, and whether the call
    returns or throws, [updateStatus] leaves under every identifier either
    the request that was there or that request with the target as its
    status, and the second only for a request that passed the test of the
    loop.  So a COMPLETED or REJECTED request never changes, a terminal
    target only changes requests that are PROCESSING, and url, generation
    date and attendant are never touched. *)
Theorem updateStatus_effect (E : Env) (userId : string)
        (dto : UpdateStatusDto) (db : Db) :
  let after := rows (snd (updateStatus E userId dto db)) in
  status_moved dto.(upd_status) db.(rows) after
  /\ (forall x r, find (has_id x) db.(rows) = Some r ->
                  completedStatus_includes r.(status) = true ->
                  find (has_id x) after = Some r)
  /\ (completedStatus_includes dto.(upd_status) = true ->
      forall x r, find (has_id x) db.(rows) = Some r ->
                  r.(status) <> PROCESSING ->
                  find (has_id x) after = Some r)
  /\ (forall x r', find (has_id x) after = Some r' ->
        exists r, find (has_id x) db.(rows) = Some r
                  /\ r'.(url) = r.(url)
                  /\ r'.(generation_date) = r.(generation_date)
                  /\ r'.(attendant) = r.(attendant)
                  /\ (r'.(status) = r.(status)
                      \/ r'.(status) = dto.(upd_status))).
Proof.
  intros after.
  assert (Hm : status_moved dto.(upd_status) db.(rows) after).
  { unfold after, updateStatus.
    destruct (is_non_admin (findUser E userId));
      [apply status_moved_refl | apply updateStatus_loop_moves]. }
  split; [exact Hm|]. split; [|split].
  - intros x r Hf Ht.
    destruct (Hm x) as [Heq|(r0 & H0 & Hs & _)]; [congruence|].
    rewrite Hf in H0; injection H0 as <-.
    unfold is_skipped in Hs. now rewrite Ht in Hs.
  - intros Ht x r Hf Hp.
    destruct (Hm x) as [Heq|(r0 & H0 & Hs & _)]; [congruence|].
    rewrite Hf in H0; injection H0 as <-.
    unfold is_skipped in Hs. rewrite Ht in Hs.
    destruct (status r); try discriminate. congruence.
  - intros x r' Hf.
    destruct (Hm x) as [Heq|(r0 & H0 & Hs & H1)].
    + exists r'. rewrite <- Heq. auto 6.
    + rewrite Hf in H1; injection H1 as ->.
      exists r0. simpl. auto 6.
Qed.

Lemma user_after_update target requestId l x :
  (exists r, find (has_id x) l = Some r /\ has_user r = true) ->
  exists r, find (has_id x) (update_rows requestId (set_status target) l)
            = Some r /\ has_user r = true.
Proof.
  intros (r & Hf & Hu).
  rewrite find_update_rows, Hf by apply set_status_id. simpl.
  destruct (has_id requestId r); eexists; split; try reflexivity; exact Hu.
Qed.

(** The loop on identifiers that all resolve to requests with a user. *)
Lemma updateStatus_loop_returns target : forall requestIds requests db,
  (forall x, In x requestIds ->
     exists r, find (has_id x) db.(rows) = Some r /\ has_user r = true) ->
  exists out db',
    updateStatus_loop target requestIds requests db
    = (Ok (requests ++ out)%list, db')
    /\ status_moved target db.(rows) db'.(rows)
    /\ (forall v, In v out ->
          In v.(fr_id) requestIds /\ v.(fr_status) = target
          /\ v.(fr_url) = None
          /\ exists r, find (has_id v.(fr_id)) db.(rows) = Some r
                       /\ is_skipped target r.(status) = false
                       /\ find (has_id v.(fr_id)) db'.(rows)
                          = Some (set_status target r)
                       /\ v.(fr_name) = user_name r
                       /\ v.(fr_requestDate) = r.(createdAt))
    /\ (forall x r, In x requestIds ->
          find (has_id x) db.(rows) = Some r ->
          is_skipped target r.(status) = false ->
          exists v, In v out /\ v.(fr_id) = x).
Proof.
  induction requestIds as [|requestId rest IH]; intros requests db Hall.
  - exists [], db. simpl. rewrite app_nil_r.
    split; [reflexivity|]. split; [apply status_moved_refl|].
    split; [intros v [] | intros x r []].
  - destruct (Hall requestId (or_introl eq_refl)) as (rd & Hf & Hu).
    rewrite updateStatus_loop_cons, Hf.
    destruct (is_skipped target (status rd)) eqn:Hs.
    + destruct (IH requests (logged (QFindOneById requestId) db))
        as (out & db' & Hrun & Hm & Hv & Hc).
      { intros x Hx. apply Hall. now right. }
      exists out, db'. split; [exact Hrun|]. split; [exact Hm|]. split.
      * intros v Hin. destruct (Hv v Hin) as (Hid & Hrest).
        split; [now right | exact Hrest].
      * intros x r [<-|Hx] Hfx Hsx; [congruence | eauto].
    + cbv zeta. unfold has_user in Hu.
      destruct (user rd) as [u|] eqn:Hud; [|discriminate].
      set (v1 := mkFormatRequest requestId (name u) (createdAt rd) target
                                 None None).
      set (db1 := logged (QFindOneById requestId)
                    (mkDb (update_rows requestId (set_status target) (rows db))
                          (queries (logged (QFindOneById requestId) db)
                             ++ [QUpdate requestId]))).
      assert (Hm1 : status_moved target (rows db) (rows db1))
        by (simpl; now apply status_moved_update with rd).
      destruct (IH (requests ++ [v1])%list db1)
        as (out & db' & Hrun & Hm & Hv & Hc).
      { intros x Hx. simpl. apply user_after_update. apply Hall. now right. }
      exists (v1 :: out), db'.
      split; [rewrite Hrun, <- app_assoc; reflexivity|].
      split; [eapply status_moved_trans; eassumption|]. split.
      * intros v [<-|Hin].
        -- simpl. repeat split; [now left|].
           exists rd. repeat split; try assumption.
           ++ destruct (Hm requestId) as [Heq|(r1 & H1 & _ & H2)].
              ** rewrite Heq. simpl.
                 now apply find_update_same; auto using set_status_id.
              ** simpl in H1.
                 rewrite (find_update_same requestId (set_status target)
                            (rows db) rd (set_status_id target) Hf) in H1.
                 injection H1 as <-. exact H2.
           ++ unfold user_name. now rewrite Hud.
        -- destruct (Hv v Hin)
             as (Hid & Hst & Hurl & r1 & H1 & Hs1 & H2 & Hn & Hd).
           split; [now right|]. split; [exact Hst|]. split; [exact Hurl|].
           destruct (Hm1 (fr_id v)) as [Heq|(r0 & H0 & Hs0 & H0')].
           ++ exists r1. rewrite <- Heq. auto 6.
           ++ rewrite H1 in H0'; injection H0' as ->.
              exists r0. repeat split; assumption.
      * intros x r [<-|Hx] Hfx Hsx.
        -- exists v1. split; [now left | reflexivity].
        -- destruct (String.eqb_spec x requestId) as [->|Hne].
           ++ exists v1. split; [now left | reflexivity].
           ++ destruct (Hc x r Hx) as (v & Hin & Hid); try assumption.
              ** simpl. rewrite find_update_other; auto using set_status_id.
              ** exists v. split; [now right | exact Hid].
Qed.

(** X8.  When the caller passes the role check and every identifier of the
    list resolves to a request that has its user, [updateStatus] returns:
    one view, with the target as status and without url, for each identifier
    whose request passed the test of the loop, and for no other; the request
    of a view is stored with the target status and its other fields kept. *)
Theorem updateStatus_returns_changed (E : Env) (userId : string)
        (dto : UpdateStatusDto) (db : Db) :
  is_non_admin (E.(findUser) userId) = false ->
  (forall x, In x dto.(upd_requestIds) ->
     exists r, find (has_id x) db.(rows) = Some r /\ has_user r = true) ->
  exists out db',
    updateStatus E userId dto db = (Ok out, db')
    /\ (forall v, In v out ->
          In v.(fr_id) dto.(upd_requestIds)
          /\ v.(fr_status) = dto.(upd_status)
          /\ v.(fr_url) = None
          /\ exists r, find (has_id v.(fr_id)) db.(rows) = Some r
                       /\ is_skipped dto.(upd_status) r.(status) = false
                       /\ find (has_id v.(fr_id)) db'.(rows)
                          = Some (set_status dto.(upd_status) r)
                       /\ v.(fr_name) = user_name r
                       /\ v.(fr_requestDate) = r.(createdAt))
    /\ (forall x r, In x dto.(upd_requestIds) ->
          find (has_id x) db.(rows) = Some r ->
          is_skipped dto.(upd_status) r.(status) = false ->
          exists v, In v out /\ v.(fr_id) = x).
Proof.
  intros Hu Hall.
  destruct (updateStatus_loop_returns dto.(upd_status) dto.(upd_requestIds)
              [] db Hall) as (out & db' & Hrun & _ & Hv & Hc).
  exists out, db'. unfold updateStatus. rewrite Hu.
  split; [exact Hrun|]. split; assumption.
Qed.

Lemma updateStatus_returns_changed_witness :
  exists out db',
    updateStatus (Sample.env "" 5000%Z) "adm"
                 (mkUpdateStatusDto REJECTED ["r1"; "r1"])
                 Sample.db_generated = (Ok out, db')
    /\ map fr_id out = ["r1"].
Proof.
  destruct (updateStatus_returns_changed (Sample.env "" 5000%Z) "adm"
              (mkUpdateStatusDto REJECTED ["r1"; "r1"]) Sample.db_generated
              eq_refl) as (out & db' & Hrun & _).
  - intros x [<-|[<-|[]]]; eexists; split; reflexivity.
  - exists out, db'. split; [|vm_compute in Hrun; now injection Hrun as <- _].
    exact Hrun.
Defined.

Lemma updateStatus_effect_witness :
  find (has_id "r1")
       (rows (snd (updateStatus (Sample.env "" 5000%Z) "adm"
                     (mkUpdateStatusDto PENDING ["r1"; "r2"]) Sample.db_two)))
  = find (has_id "r1") (rows Sample.db_two).
Proof.
  destruct (find (has_id "r1") (rows Sample.db_two)) as [r|] eqn:Hf;
    [|discriminate Hf].
  apply (proj1 (proj2 (updateStatus_effect (Sample.env "" 5000%Z) "adm"
                         (mkUpdateStatusDto PENDING ["r1"; "r2"])
                         Sample.db_two)) "r1" r Hf).
  injection Hf as <-. reflexivity.
Defined.

(** ** What generatePdf does to the table *)

Lemma documents_added_refl E caller l : documents_added E caller l l.
Proof. intros x; now left. Qed.

Lemma documents_added_trans E caller l1 l2 l3 :
  documents_added E caller l1 l2 -> documents_added E caller l2 l3 ->
  documents_added E caller l1 l3.
Proof.
  intros H12 H23 x.
  destruct (H12 x) as [E12|(r & link & H1 & Hs & H2)];
    destruct (H23 x) as [E23|(r' & link' & H2' & Hs' & H3)].
  - left; congruence.
  - right; exists r', link'; repeat split; try assumption; congruence.
  - right; exists r, link; repeat split; try assumption; congruence.
  - rewrite H2 in H2'; injection H2' as <-. discriminate Hs'.
Qed.

Lemma generatePdf_item_adds E caller requestId requests db :
  documents_added E caller db.(rows)
    (rows (snd (generatePdf_item E caller requestId requests db))).
Proof.
  rewrite generatePdf_item_run.
  destruct (find (has_id requestId) (rows db)) as [rd|] eqn:Hf;
    [|apply documents_added_refl].
  destruct (status_eqb (status rd) PENDING) eqn:Hs; simpl negb; cbv iota;
    [|apply documents_added_refl].
  destruct (findDeclaration E (decl_id (declaration rd)));
    [|apply documents_added_refl].
  destruct (user rd); [|apply documents_added_refl].
  destruct (publish (at_turn E requestId) requestId d u) as [e|signedUrl];
    [apply documents_added_refl|].
  assert (Hp : status rd = PENDING)
    by (destruct (status rd); now try discriminate).
  intros x. simpl. destruct (String.eqb_spec x requestId) as [->|Hne].
  - right; exists rd, signedUrl; repeat split; try assumption.
    now apply find_update_same; auto using set_generated_id.
  - left. now apply find_update_other; auto using set_generated_id.
Qed.

Lemma generatePdf_loop_adds E caller : forall requestIds requests db,
  documents_added E caller db.(rows)
    (rows (snd (generatePdf_loop E caller requestIds requests db))).
Proof.
  induction requestIds as [|requestId rest IH]; intros requests db;
    [apply documents_added_refl|].
  rewrite generatePdf_loop_cons.
  pose proof (generatePdf_item_adds E caller requestId requests db) as H1.
  destruct (generatePdf_item_spec E caller requestId requests db)
    as (out1 & db1 & Hrun1 & _).
  rewrite Hrun1 in H1 |- *. simpl in H1.
  eapply documents_added_trans; [exact H1 | apply IH].
Qed.

Lemma updates_of_app x (a b : list Query) :
  updates_of x (a ++ b) = updates_of x a + updates_of x b.
Proof. unfold updates_of. now rewrite filter_app, length_app. Qed.

Lemma documents_counted_refl E caller l : documents_counted E caller l l [].
Proof. intros x; left; now split. Qed.

Lemma documents_counted_trans E caller l1 l2 l3 a1 a2 :
  documents_counted E caller l1 l2 a1 ->
  documents_counted E caller l2 l3 a2 ->
  documents_counted E caller l1 l3 (a1 ++ a2).
Proof.
  intros H12 H23 x. rewrite updates_of_app.
  destruct (H12 x) as [[E12 U1]|(r & link & H1 & Hs & H2 & U1)];
    destruct (H23 x) as [[E23 U2]|(r' & link' & H2' & Hs' & H3 & U2)];
    rewrite U1, U2.
  - left; split; [congruence | reflexivity].
  - right; exists r', link'; repeat split; try assumption; try reflexivity;
      congruence.
  - right; exists r, link; repeat split; try assumption; try reflexivity;
      congruence.
  - rewrite H2 in H2'; injection H2' as <-. discriminate Hs'.
Qed.

Lemma generatePdf_item_counted E caller requestId requests db :
  exists added,
    queries (snd (generatePdf_item E caller requestId requests db))
    = (db.(queries) ++ added)%list
    /\ documents_counted E caller db.(rows)
         (rows (snd (generatePdf_item E caller requestId requests db))) added.
Proof.
  destruct (generatePdf_item_shape E caller requestId requests db)
    as [->|(rd & d & u & signedUrl & Hf & Hs & _ & _ & _ & ->)].
  - exists [QFindOneById requestId]. split; [reflexivity|].
    intros x; left; now split.
  - exists [QFindOneById requestId; QUpdate requestId; QFindOneById requestId].
    split; [simpl; now rewrite <- !app_assoc|].
    intros x. simpl rows. unfold updates_of. simpl filter.
    destruct (String.eqb_spec requestId x) as [<-|Hne].
    + right. exists rd, signedUrl. repeat split; try assumption.
      now apply find_update_same; auto using set_generated_id.
    + left. split; [|reflexivity].
      apply find_update_other; auto using set_generated_id.
Qed.

Lemma generatePdf_loop_counted E caller : forall requestIds requests db,
  exists added,
    queries (snd (generatePdf_loop E caller requestIds requests db))
    = (db.(queries) ++ added)%list
    /\ documents_counted E caller db.(rows)
         (rows (snd (generatePdf_loop E caller requestIds requests db))) added.
Proof.
  induction requestIds as [|requestId rest IH]; intros requests db.
  - exists []. simpl. rewrite app_nil_r.
    split; [reflexivity | apply documents_counted_refl].
  - rewrite generatePdf_loop_cons.
    destruct (generatePdf_item_counted E caller requestId requests db)
      as (a1 & Hq1 & H1).
    destruct (generatePdf_item_spec E caller requestId requests db)
      as (out1 & db1 & Hrun1 & _).
    rewrite Hrun1 in Hq1, H1 |- *. simpl in Hq1, H1.
    destruct (IH (requests ++ out1)%list db1) as (a2 & Hq2 & H2).
    exists (a1 ++ a2)%list. rewrite Hq2, Hq1, <- app_assoc.
    split; [reflexivity|].
    eapply documents_counted_trans; eassumption.
Qed.

(** X9.  Whatever the caller and the list, and whether the call returns or
    throws, [generatePdf] leaves under every identifier either the request
    that was there, which the call did not update, or a request that was
    PENDING and that the call updated exactly once, writing the four fields
    of the update: status PROCESSING, a url, the reading of the clock taken
    for this update as generation date and the profile of the caller as
    attendant.  The identifier, the user, the declaration and the creation
    date of the request are kept. *)
Theorem generatePdf_effect (E : Env) (userId : string)
        (dto : GeneratePdfDto) (db : Db) :
  let result := snd (generatePdf E userId dto db) in
  exists added,
    queries result = (db.(queries) ++ added)%list
    /\ forall x,
        (find (has_id x) (rows result) = find (has_id x) db.(rows)
         /\ updates_of x added = 0)
        \/ exists r signedUrl,
             find (has_id x) db.(rows) = Some r
             /\ r.(status) = PENDING
             /\ find (has_id x) (rows result)
                = Some (mkRequest r.(req_id) r.(user) r.(declaration)
                                  PROCESSING r.(createdAt)
                                  (Some (E.(clock) x 2)) (Some signedUrl)
                                  (E.(findUser) userId))
             /\ updates_of x added = 1.
Proof.
  intros result. unfold result.
  destruct (generatePdf_cases E userId dto db) as [[e ->]| ->].
  - exists []. simpl. rewrite app_nil_r. split; [reflexivity|].
    intros x; left; now split.
  - destruct (generatePdf_loop_counted E (findUser E userId)
                dto.(gen_requestIds) [] db) as (added & Hq & H).
    exists added. split; [exact Hq | exact H].
Qed.

(** X10.  A document is published exactly when pdfkit left a file that is
    not empty and the upload of these bytes, under the name of the file and
    the collection "declaration", returned a URL; an empty file is an error
    and is never uploaded. *)
Theorem publish_needs_document (E : Env) (requestId : string)
        (d : Declaration) (u : User) :
  let data := userData E u in
  let body := Text.replacePlaceholders d.(content) data in
  let foot := Text.replacePlaceholders d.(footer) data in
  (forall signedUrl,
      publish E requestId d u = inr signedUrl <->
      exists fileBuffer,
        E.(writePdf) (filePath E requestId) d body foot = inr fileBuffer
        /\ String.length fileBuffer <> 0
        /\ E.(uploadStorage) "declaration" (fileName E requestId) fileBuffer
                             "application/pdf" = inr signedUrl)
  /\ (E.(writePdf) (filePath E requestId) d body foot = inr EmptyString ->
      exists e, publish E requestId d u = inl e).
Proof.
  intros data body foot. unfold publish, generatePdfFile.
  fold data; fold body; fold foot.
  split.
  - intros signedUrl.
    destruct (writePdf E (filePath E requestId) d body foot) as [e|buf].
    + split; [discriminate | intros (b & Hb & _); discriminate].
    + destruct (Nat.eqb_spec (String.length buf) 0) as [Hz|Hnz].
      * split; [discriminate|].
        intros (b & Hb & Hl & _). injection Hb as <-. contradiction.
      * destruct (uploadStorage E "declaration" (fileName E requestId) buf
                                "application/pdf") as [e|link] eqn:Hup.
        -- split; [discriminate|].
           intros (b & Hb & _ & Hu). injection Hb as <-. congruence.
        -- split.
           ++ intros [= <-]. now exists buf.
           ++ intros (b & Hb & _ & Hu). injection Hb as <-. congruence.
  - intros ->. simpl. eexists; reflexivity.
Qed.

Lemma publish_needs_document_witness :
  exists e, publish (Sample.env_with (inr EmptyString)
                       (fun file => inr ("https://blob/" ++ file)) "" 5000%Z)
                    "r1" Sample.matricula Sample.ana = inl e.
Proof.
  exact (proj2 (publish_needs_document
                  (Sample.env_with (inr EmptyString)
                     (fun file => inr ("https://blob/" ++ file)) "" 5000%Z)
                  "r1" Sample.matricula Sample.ana) eq_refl).
Defined.

(** ** Invariants of every history *)

Lemma run_op_Forall (P : RequestEntity -> Prop) op db :
  (forall id at_ u d, P (create id at_ u d)) ->
  (forall t r, P r -> P (set_status t r)) ->
  (forall link at_ a r, P r -> P (set_generated link at_ a r)) ->
  Forall P db.(rows) -> Forall P (rows (run_op op db)).
Proof.
  intros Hc Hs Hg HP.
  destruct op as [E declarationId userId|E userId dto|E userId dto]; simpl.
  - destruct (createRequest_rows E declarationId userId db) as [->|[d ->]];
      [exact HP|].
    apply Forall_app; split; [exact HP|]. constructor; [apply Hc | constructor].
  - unfold updateStatus.
    destruct (is_non_admin (findUser E userId)); [exact HP|].
    apply updateStatus_loop_Forall; auto.
  - destruct (generatePdf_cases E userId dto db) as [[e ->]| ->]; [exact HP|].
    apply generatePdf_loop_Forall; auto.
Qed.

Lemma run_ops_Forall (P : RequestEntity -> Prop) :
  (forall id at_ u d, P (create id at_ u d)) ->
  (forall t r, P r -> P (set_status t r)) ->
  (forall link at_ a r, P r -> P (set_generated link at_ a r)) ->
  forall ops db, Forall P db.(rows) -> Forall P (rows (run_ops ops db)).
Proof.
  intros Hc Hs Hg. induction ops as [|op ops IH]; intros db HP; [exact HP|].
  simpl. apply IH. now apply run_op_Forall.
Qed.

(** X11.  In every table reached from the empty one through [createRequest],
    [updateStatus] and [generatePdf], with any caller, target and
    collaborators, a request has a url exactly when it has a generation
    date, and it has an attendant only if it has a url. *)
Theorem url_and_generation_date_paired (ops : list Op) :
  Forall dates_paired (rows (run_ops ops empty_db)).
Proof.
  apply run_ops_Forall; [| | |constructor].
  - intros id at_ u d. split; [split; reflexivity|]. intros H; now contradiction H.
  - intros t r H. exact H.
  - intros link at_ a r _. split; [split; discriminate|]. intros _; discriminate.
Qed.

Lemma identity_update_rows requestId g l :
  (forall r, identity_of (g r) = identity_of r) ->
  map identity_of (update_rows requestId g l) = map identity_of l.
Proof.
  intros Hg. unfold update_rows. rewrite map_map. apply map_ext.
  intros r. now destruct (has_id requestId r).
Qed.

Lemma updateStatus_loop_identity target : forall requestIds requests db,
  map identity_of (rows (snd (updateStatus_loop target requestIds requests db)))
  = map identity_of db.(rows).
Proof.
  induction requestIds as [|requestId rest IH]; intros requests db;
    [reflexivity|].
  rewrite updateStatus_loop_cons.
  destruct (find (has_id requestId) (rows db)) as [rd|]; [|reflexivity].
  destruct (is_skipped target (status rd)); [now rewrite IH|].
  cbv zeta.
  destruct (user rd); [rewrite IH|]; simpl; now apply identity_update_rows.
Qed.

Lemma generatePdf_loop_identity E caller : forall requestIds requests db,
  map identity_of
      (rows (snd (generatePdf_loop E caller requestIds requests db)))
  = map identity_of db.(rows).
Proof.
  induction requestIds as [|requestId rest IH]; intros requests db;
    [reflexivity|].
  rewrite generatePdf_loop_cons, generatePdf_item_run.
  destruct (find (has_id requestId) (rows db)) as [rd|]; [|now rewrite IH].
  destruct (negb (status_eqb (status rd) PENDING)); [now rewrite IH|].
  destruct (findDeclaration E (decl_id (declaration rd))); [|now rewrite IH].
  destruct (user rd); [|now rewrite IH].
  destruct (publish (at_turn E requestId) requestId d u); [now rewrite IH|].
  rewrite IH. simpl. now apply identity_update_rows.
Qed.

Lemma run_op_identity op db :
  exists added,
    map identity_of (rows (run_op op db))
    = (map identity_of db.(rows) ++ added)%list
    /\ List.length added <= 1.
Proof.
  destruct op as [E declarationId userId|E userId dto|E userId dto]; simpl.
  - destruct (createRequest_rows E declarationId userId db) as [->|[d ->]].
    + exists []. rewrite app_nil_r. auto.
    + eexists [_]. rewrite map_app. split; [reflexivity | simpl; lia].
  - exists []. rewrite app_nil_r. split; [|simpl; lia].
    unfold updateStatus.
    destruct (is_non_admin (findUser E userId)); [reflexivity|].
    apply updateStatus_loop_identity.
  - exists []. rewrite app_nil_r. split; [|simpl; lia].
    destruct (generatePdf_cases E userId dto db) as [[e ->]| ->];
      [reflexivity|].
    apply generatePdf_loop_identity.
Qed.

(** X12.  No operation deletes or reorders requests, or changes the
    identifier, the user, the declaration or the creation date of one: after
    any sequence of [createRequest], [updateStatus] and [generatePdf] the
    table holds the requests it held, in the same order and with these four
    fields as they were, followed by at most one new request per operation. *)
Theorem requests_are_never_removed (ops : list Op) (db : Db) :
  exists added,
    map identity_of (rows (run_ops ops db))
    = (map identity_of db.(rows) ++ added)%list
    /\ List.length added <= List.length ops.
Proof.
  revert db. induction ops as [|op ops IH]; intros db.
  - exists []. simpl. rewrite app_nil_r. auto.
  - destruct (run_op_identity op db) as (a1 & H1 & L1).
    destruct (IH (run_op op db)) as (a2 & H2 & L2).
    exists (a1 ++ a2)%list. simpl run_ops. rewrite H2, H1, <- app_assoc.
    split; [reflexivity|]. rewrite length_app. simpl. lia.
Qed.

Lemma requests_are_never_removed_witness :
  exists added,
    map identity_of (rows Sample.db_two)
    = (map identity_of (rows Sample.db_generated) ++ added)%list
    /\ List.length added <= 2.
Proof.
  exact (requests_are_never_removed
           [OpUpdateStatus (Sample.env "" 3000%Z) "adm"
                           (mkUpdateStatusDto COMPLETED ["r1"]);
            OpCreateRequest (Sample.env "r2" 4000%Z) "d1" "u1"]
           Sample.db_generated).
Defined.

(** ** createRequest and the lookups *)

Lemma find_app_one {A} (p : A -> bool) l a :
  find p (l ++ [a])
  = match find p l with
    | Some x => Some x
    | None => if p a then Some a else None
    end.
Proof.
  induction l as [|x l IH]; simpl; [reflexivity|].
  destruct (p x); [reflexivity | exact IH].
Qed.

(** X13.  After a [createRequest] that went through, with a primary key that
    was not in the table, [getRequestById] on that key returns the new
    request and every older request is still found under its identifier.
    When the caller has a profile, [checkForPendingRequests] now answers
    true for the pair, and a second [createRequest] for the same pair throws
    Conflict. *)
Theorem createRequest_then_lookup
        (E : Env) (declarationId userId : string) (d : Declaration) (db : Db) :
  is_admin_user (E.(findUser) userId) = false ->
  E.(findDeclaration) declarationId = Some d ->
  existsb (is_pending_for userId declarationId) db.(rows) = false ->
  find (has_id E.(newId)) db.(rows) = None ->
  let r := create E.(newId) E.(now) (E.(findUser) userId) d in
  let db' := snd (createRequest E declarationId userId db) in
  fst (createRequest E declarationId userId db) = Ok r
  /\ fst (getRequestById E.(newId) db') = Ok (Some r)
  /\ (forall x r0, find (has_id x) db.(rows) = Some r0 ->
                   fst (getRequestById x db') = Ok (Some r0))
  /\ (stores_consistent E -> E.(findUser) userId <> None ->
      fst (checkForPendingRequests userId declarationId db') = Ok true
      /\ forall E' d',
          is_admin_user (E'.(findUser) userId) = false ->
          E'.(findDeclaration) declarationId = Some d' ->
          createRequest E' declarationId userId db'
          = (Throw (ConflictException msg_conflict),
             logged (QFindOnePending userId declarationId) db')).
Proof.
  intros Hu Hd He Hfresh r db'.
  assert (Hrun : createRequest E declarationId userId db
                 = (Ok r, mkDb (db.(rows) ++ [r])
                              ((db.(queries)
                                  ++ [QFindOnePending userId declarationId])
                                 ++ [QSave]))).
  { unfold createRequest. rewrite Hu, Hd.
    unfold bind, checkForPendingRequests, bind, repo_findOne_pending, ret.
    rewrite find_existsb in He.
    destruct (find (is_pending_for userId declarationId) (rows db));
      [discriminate|]. reflexivity. }
  assert (Hrows : rows db' = (rows db ++ [r])%list)
    by (unfold db'; now rewrite Hrun).
  split; [now rewrite Hrun|]. split; [|split].
  - unfold getRequestById, repo_findOne_by_id; simpl.
    rewrite Hrows, find_app_one, Hfresh.
    unfold has_id, r, create; simpl. now rewrite String.eqb_refl.
  - intros x r0 Hf. unfold getRequestById, repo_findOne_by_id; simpl.
    now rewrite Hrows, find_app_one, Hf.
  - intros [Hcu Hcd] Hsome.
    assert (Hp : find (is_pending_for userId declarationId) (rows db')
                 = Some r).
    { rewrite Hrows, find_app_one.
      rewrite find_existsb in He.
      destruct (find (is_pending_for userId declarationId) (rows db));
        [discriminate|].
      unfold is_pending_for, user_id_is, r, create; simpl.
      destruct (findUser E userId) as [u|] eqn:Hfu; [|congruence].
      now rewrite (Hcu _ _ Hfu), (Hcd _ _ Hd), !String.eqb_refl. }
    split.
    + unfold checkForPendingRequests, bind, repo_findOne_pending, ret.
      now rewrite Hp.
    + intros E' d' Hu' Hd'. unfold createRequest. rewrite Hu', Hd'.
      unfold bind, checkForPendingRequests, bind, repo_findOne_pending, ret.
      now rewrite Hp.
Qed.

Lemma createRequest_then_lookup_witness :
  fst (getRequestById "r2" (snd (createRequest (Sample.env "r2" 4000%Z)
                                   "d1" "u1" Sample.db_generated)))
  = Ok (Some (create "r2" 4000%Z (Some Sample.ana) Sample.matricula)).
Proof.
  exact (proj1 (proj2 (createRequest_then_lookup (Sample.env "r2" 4000%Z)
                         "d1" "u1" Sample.matricula Sample.db_generated
                         eq_refl eq_refl eq_refl eq_refl))).
Defined.

(** ** The text of a document *)

Lemma userData_entries_ok (E : Env) (u : User) :
  clean_profile E u = true ->
  forallb Text.entry_ok (userData E u) = true.
Proof.
  unfold clean_profile. cbn [forallb].
  intros H.
  repeat match type of H with
         | (_ && _)%bool = true =>
             let Hv := fresh "Hv" in apply andb_true_iff in H as [Hv H]
         end.
  assert (Hcomp : Text.value_ok
                    match complement u with
                    | Some c => if (String.length c =? 0)%nat then ""
                                else " " ++ c
                    | None => ""
                    end = true).
  { destruct (complement u) as [c|]; [|reflexivity].
    destruct (String.length c =? 0)%nat; [reflexivity|].
    now apply (TextMore.value_ok_app " " c). }
  pose proof (TextMore.value_ok_formatCep (postal_code u)) as Hcep.
  unfold userData, Text.entry_ok. cbn [forallb fst snd].
  repeat match goal with
         | Hx : Text.value_ok _ = true |- _ => rewrite ?Hx; clear Hx
         end.
  reflexivity.
Qed.

(** X14.  For a profile whose values hold neither an opening brace nor a
    dollar sign, and a template whose braces only form tokens, the text that
    [generatePdf] writes into the document is the template with the twelve
    tokens of [userData] replaced at once: none of them is left in the text,
    the postal code appears in its normalised form, the complement with a
    space in front or not at all, and any other token stays. *)
Theorem document_text_is_substitution (E : Env) (u : User)
        (segs : list Text.Segment) :
  clean_profile E u = true ->
  forallb Text.wf_segment segs = true ->
  let text := Text.replacePlaceholders (Text.flatten segs) (userData E u) in
  text = Text.render_spec (userData E u) segs
  /\ (forall k, In k ["nome"; "rua"; "numero_casa"; "complemento"; "bairro";
                      "cidade"; "estado"; "cep"; "data_atual"; "rg"; "cpf";
                      "orgao_emissor"] ->
                Text.occurs (Text.token k) text = false)
  /\ Text.lookup "cep" (userData E u)
     = Some (Text.formatCep u.(postal_code))
  /\ Text.lookup "complemento" (userData E u)
     = Some (match u.(complement) with
             | Some c => if (String.length c =? 0)%nat then "" else " " ++ c
             | None => ""
             end).
Proof.
  intros Hclean Hwf text.
  pose proof (userData_entries_ok E u Hclean) as Hok.
  assert (Htext : text = Text.render_spec (userData E u) segs)
    by (apply TextFacts.replacePlaceholders_segments; assumption).
  split; [exact Htext|]. split; [|split; reflexivity].
  intros k Hin.
  assert (Hkey : In k (map fst (userData E u))) by exact Hin.
  rewrite Htext, TextFacts.render_spec_flatten.
  destruct (TextFacts.plain_key_no_brace k
              (TextFacts.plain_key_of_entry _ k Hok Hkey)) as [_ Hc].
  apply TextFacts.occurs_segments;
    auto using TextFacts.wf_resolve, TextFacts.resolve_forgets.
Qed.

Lemma document_text_is_substitution_witness :
  Text.replacePlaceholders
    "Eu, {{nome}}, residente em {{rua}}, {{numero_casa}}{{complemento}}, CEP {{cep}} {{x}}."
    (userData (Sample.env "" 5000%Z) Sample.ana)
  = "Eu, Ana Souza, residente em Rua das Flores, 12 ap 3, CEP 02403-010 {{x}}.".
Proof.
  exact (proj1 (document_text_is_substitution (Sample.env "" 5000%Z) Sample.ana
                  [Text.Txt "Eu, "; Text.Tok "nome";
                   Text.Txt ", residente em "; Text.Tok "rua"; Text.Txt ", ";
                   Text.Tok "numero_casa"; Text.Tok "complemento";
                   Text.Txt ", CEP "; Text.Tok "cep"; Text.Txt " ";
                   Text.Tok "x"; Text.Txt "."]
                  eq_refl eq_refl)).
Defined.

(** ** Terminal states *)

Lemma run_op_keeps_terminal op db x r :
  find (has_id x) db.(rows) = Some r ->
  completedStatus_includes r.(status) = true ->
  find (has_id x) (rows (run_op op db)) = Some r.
Proof.
  intros Hf Ht.
  destruct op as [E declarationId userId|E userId dto|E userId dto]; simpl.
  - destruct (createRequest_rows E declarationId userId db) as [->|[d ->]];
      [exact Hf|]. now rewrite find_app_one, Hf.
  - unfold updateStatus.
    destruct (is_non_admin (findUser E userId)); [exact Hf|].
    destruct (updateStatus_loop_moves dto.(upd_status) dto.(upd_requestIds)
                [] db x) as [Heq|(r0 & H0 & Hs & _)]; [congruence|].
    rewrite Hf in H0; injection H0 as <-.
    unfold is_skipped in Hs. now rewrite Ht in Hs.
  - destruct (generatePdf_cases E userId dto db) as [[e ->]| ->]; [exact Hf|].
    destruct (generatePdf_loop_adds E (findUser E userId)
                dto.(gen_requestIds) [] db x)
      as [Heq|(r0 & link & H0 & Hs & _)]; [congruence|].
    rewrite Hf in H0; injection H0 as <-.
    rewrite Hs in Ht. discriminate.
Qed.

(** X15.  COMPLETED and REJECTED are final: a request found in one of these
    states is found unchanged under its identifier after any sequence of
    [createRequest], [updateStatus] and [generatePdf], by any callers, with
    any targets and collaborators. *)
Theorem terminal_requests_never_change (ops : list Op) (db : Db)
        (x : string) (r : RequestEntity) :
  find (has_id x) db.(rows) = Some r ->
  completedStatus_includes r.(status) = true ->
  find (has_id x) (rows (run_ops ops db)) = Some r.
Proof.
  revert db. induction ops as [|op ops IH]; intros db Hf Ht; [exact Hf|].
  simpl. apply IH; [|exact Ht]. now apply run_op_keeps_terminal.
Qed.

Lemma terminal_requests_never_change_witness :
  option_map status
    (find (has_id "r1")
       (rows (run_ops
                [OpUpdateStatus (Sample.env "" 5000%Z) "adm"
                                (mkUpdateStatusDto PENDING ["r1"]);
                 OpGeneratePdf (Sample.env "" 6000%Z) "adm"
                               (mkGeneratePdfDto ["r1"; "r2"]);
                 OpUpdateStatus (Sample.env "" 7000%Z) "adm"
                                (mkUpdateStatusDto REJECTED ["r1"; "r2"])]
                Sample.db_two)))
  = Some COMPLETED.
Proof.
  destruct (find (has_id "r1") (rows Sample.db_two)) as [r|] eqn:Hf;
    [|discriminate Hf].
  rewrite (terminal_requests_never_change _ Sample.db_two "r1" r Hf);
    injection Hf as <-; reflexivity.
Defined.

End ServiceMore.
